(** * Hero catalogue: the paginated, filtered list endpoints of routers/hero.js

    The handlers of [routers/hero.js] are embedded as functions from a
    request (query string, JSON body, route parameter) and a database state
    to the response they send.  Three layers:

    - the JavaScript primitives the handlers use on the page parameter
      ([isNaN], [-], [*], [+], [==], [parseInt], string concatenation and
      [new RegExp]);
    - the record store behind the [Hero] and [Comment] models;
    - the seven handlers, each split into the store call it builds and the
      response it shapes.

    Text.  A JavaScript string is a sequence of UTF-16 code units.  A string
    of this development stands for the JavaScript string that has one code
    unit, below 256, for each of its characters: [ascii_of_nat 233] is the
    letter e with acute accent, U+00E9.  Strings with a unit of 256 or more
    are not in reach.  Page numbers are read from ASCII text only; the
    letters of names and queries are compared as flag [i] compares the
    units below 256. *)

From Stdlib Require Import ZArith List String Ascii Bool Lia PeanoNat.
From Stdlib Require Import Permutation Sorted.
From Stdlib Require Decimal DecimalString DecimalPos DecimalN.
Import ListNotations.
Local Open Scope string_scope.
Local Open Scope list_scope.
Local Open Scope Z_scope.

(* ================================================================== *)
(** ** A small failure monad *)
(* ================================================================== *)

(** [None] is a request the development does not follow to a response: a
    store call that is rejected, numeric text outside the integers below, a
    pattern outside the interpreted fragment. *)
Definition bind {A B : Type} (m : option A) (k : A -> option B) : option B :=
  match m with
  | Some a => k a
  | None => None
  end.

Notation "x <- m ;; k" := (bind m (fun x => k))
  (at level 61, m at next level, right associativity).

(* ================================================================== *)
(** ** JavaScript numbers and coercions *)
(* ================================================================== *)

Module JS.

(** A value of type number.  [Num z] is the double whose value is the
    integer [z]; the coercions below produce it only for [|z| <= 2^49], so
    that every intermediate value of a handler (at most ten times a page,
    plus one) stays below 2^53, where double arithmetic on integers is
    exact. *)
Inductive number : Type :=
| NaN
| Num (z : Z).

(** The values a handler's [page] variable holds: [req.query.page] is
    [undefined] or text, and [GET /heroes] overwrites it with the number 1. *)
Inductive value : Type :=
| VUndefined
| VString (s : string)
| VNumber (n : number).

Definition number_eqb (a b : number) : bool :=
  match a, b with
  | Num x, Num y => x =? y
  | _, _ => false
  end.

(** [a - b], [a + b], [a * b]: NaN is contagious. *)
Definition sub (a b : number) : number :=
  match a, b with
  | Num x, Num y => Num (x - y)
  | _, _ => NaN
  end.

Definition add (a b : number) : number :=
  match a, b with
  | Num x, Num y => Num (x + y)
  | _, _ => NaN
  end.

Definition mul (a b : number) : number :=
  match a, b with
  | Num x, Num y => Num (x * y)
  | _, _ => NaN
  end.

(** [Math.ceil(count / limit)] for a count [c >= 0] and a limit [d > 0]. *)
Definition ceil_div (c d : Z) : Z := (c + d - 1) / d.

Definition modelled_bound : Z := 2 ^ 49.

Definition exact (z : Z) : option number :=
  if Z.abs z <=? modelled_bound then Some (Num z) else None.

(** *** Reading text as a number *)

Definition code (c : ascii) : Z := Z.of_nat (nat_of_ascii c).

(** Text made of ASCII characters only.  [Number] and [parseInt] strip
    white space of every script, so numeric text is read here only when it
    is ASCII; other text is not followed ([None] in [ToNumber] and
    [parseInt]). *)
Definition is_ascii_text (s : string) : bool :=
  forallb (fun c => code c <? 128) (list_ascii_of_string s).

(** The white space of ASCII text: tab, line feed, vertical tab, form feed,
    carriage return, space. *)
Definition is_white_space (c : ascii) : bool :=
  ((9 <=? code c) && (code c <=? 13)) || (code c =? 32).

Fixpoint drop_white_space (s : list ascii) : list ascii :=
  match s with
  | c :: rest => if is_white_space c then drop_white_space rest else s
  | [] => []
  end.

Definition trim (s : list ascii) : list ascii :=
  rev (drop_white_space (rev (drop_white_space s))).

(** The value of [c] as a digit of the given radix (at most 16). *)
Definition digit_value (radix : Z) (c : ascii) : option Z :=
  let n := code c in
  let v := if (48 <=? n) && (n <=? 57) then Some (n - 48)
           else if (97 <=? n) && (n <=? 102) then Some (n - 87)
           else if (65 <=? n) && (n <=? 70) then Some (n - 55)
           else None in
  match v with
  | Some d => if d <? radix then Some d else None
  | None => None
  end.

(** The longest prefix of digits: its value, its length, and what follows. *)
Fixpoint read_digits (radix acc : Z) (s : list ascii) : Z * nat * list ascii :=
  match s with
  | c :: rest =>
      match digit_value radix c with
      | Some d =>
          let '(v, n, tl) := read_digits radix (acc * radix + d) rest in
          (v, S n, tl)
      | None => (acc, O, s)
      end
  | [] => (acc, O, [])
  end.

Definition is_char (c : ascii) (a b : string) : bool :=
  orb (String.eqb (String c EmptyString) a) (String.eqb (String c EmptyString) b).

(** [+] or [-] in front: the sign and the rest. *)
Definition read_sign (s : list ascii) : Z * list ascii :=
  match s with
  | c :: rest =>
      if is_char c "-" "-" then (-1, rest)
      else if is_char c "+" "+" then (1, rest)
      else (1, s)
  | [] => (1, [])
  end.

(** [parseInt(text)] with no radix argument, for ASCII text: leading white
    space, a sign, an optional [0x], then the longest run of digits; what
    follows is ignored. *)
Definition parseInt_string (s : string) : option number :=
  let '(sign, body) := read_sign (drop_white_space (list_ascii_of_string s)) in
  let '(radix, digits) :=
    match body with
    | z :: x :: rest =>
        if is_char z "0" "0" && is_char x "x" "X" then (16, rest) else (10, body)
    | _ => (10, body)
    end in
  let '(v, n, _) := read_digits radix 0 digits in
  match n with
  | O => Some NaN
  | S _ => exact (sign * v)
  end.

(** An exponent part: [e] or [E], an optional sign, digits to the end. *)
Definition is_exponent (s : list ascii) : bool :=
  match s with
  | e :: rest =>
      if is_char e "e" "E" then
        let '(_, n, tl) := read_digits 10 0 (snd (read_sign rest)) in
        negb (Nat.eqb n 0) && match tl with [] => true | _ => false end
      else false
  | [] => false
  end.

(** What follows the integer digits in a decimal literal that is not a plain
    run of digits: a fraction, an exponent, or both.  [n] is the number of
    integer digits read. *)
Definition is_fraction_or_exponent (n : nat) (s : list ascii) : bool :=
  match s with
  | d :: rest =>
      if is_char d "." "." then
        let '(_, m, tl) := read_digits 10 0 rest in
        negb (Nat.eqb n 0 && Nat.eqb m 0)
        && match tl with [] => true | _ => is_exponent tl end
      else negb (Nat.eqb n 0) && is_exponent s
  | [] => false
  end.

(** [Number(text)] for ASCII text: white space trimmed on both sides; the
    empty text is 0; a hexadecimal, octal or binary literal takes no sign; a
    decimal literal takes one.  Text that is a numeric literal but not an integer (a
    fraction, an exponent, [Infinity]) is [None]; text that is no numeric
    literal is [NaN]. *)
Definition StringToNumber (s : string) : option number :=
  let t := trim (list_ascii_of_string s) in
  let prefixed (radix : Z) (digits : list ascii) :=
    let '(v, n, tl) := read_digits radix 0 digits in
    match n, tl with
    | S _, [] => exact v
    | _, _ => Some NaN
    end in
  let decimal :=
    let '(sign, body) := read_sign t in
    if String.eqb (string_of_list_ascii body) "Infinity" then None
    else
      let '(v, n, tl) := read_digits 10 0 body in
      match n, tl with
      | S _, [] => exact (sign * v)
      | _, _ => if is_fraction_or_exponent n tl then None else Some NaN
      end in
  match t with
  | [] => Some (Num 0)
  | z :: x :: rest =>
      if is_char z "0" "0" then
        if is_char x "x" "X" then prefixed 16 rest
        else if is_char x "o" "O" then prefixed 8 rest
        else if is_char x "b" "B" then prefixed 2 rest
        else decimal
      else decimal
  | _ => decimal
  end.

(** [ToNumber]: the coercion behind [isNaN(v)], [v - 1] and [v == 1].  Text
    that is not ASCII is not followed. *)
Definition ToNumber (v : value) : option number :=
  match v with
  | VUndefined => Some NaN
  | VString s => if is_ascii_text s then StringToNumber s else None
  | VNumber n => Some n
  end.

Definition isNaN (v : value) : option bool :=
  n <- ToNumber v ;;
  Some (match n with NaN => true | Num _ => false end).

(** [parseInt(v)] reads the text of [v]: [undefined] and [NaN] print as
    words, an integer prints as its decimal digits and reads back.  Text
    that is not ASCII is not followed. *)
Definition parseInt (v : value) : option number :=
  match v with
  | VUndefined => Some NaN
  | VString s => if is_ascii_text s then parseInt_string s else None
  | VNumber NaN => Some NaN
  | VNumber (Num z) => exact z
  end.

(** [v == k] for a number [k]. *)
Definition loose_eq (v : value) (k : number) : option bool :=
  n <- ToNumber v ;;
  Some (number_eqb n k).

(** [String(p)] for an integer [p >= 0]: its decimal digits. *)
Definition decimal (p : Z) : string :=
  DecimalString.NilZero.string_of_uint (N.to_uint (Z.to_N p)).

Definition is_decimal_digit (c : ascii) : bool :=
  existsb (Ascii.eqb c) (list_ascii_of_string "0123456789").

Definition digit (c : ascii) : Prop := is_decimal_digit c = true.

(** The number a run of decimal digits spells, continuing from [acc]. *)
Fixpoint uint_value (acc : Z) (d : Decimal.uint) : Z :=
  match d with
  | Decimal.Nil => acc
  | Decimal.D0 l => uint_value (acc * 10 + 0) l
  | Decimal.D1 l => uint_value (acc * 10 + 1) l
  | Decimal.D2 l => uint_value (acc * 10 + 2) l
  | Decimal.D3 l => uint_value (acc * 10 + 3) l
  | Decimal.D4 l => uint_value (acc * 10 + 4) l
  | Decimal.D5 l => uint_value (acc * 10 + 5) l
  | Decimal.D6 l => uint_value (acc * 10 + 6) l
  | Decimal.D7 l => uint_value (acc * 10 + 7) l
  | Decimal.D8 l => uint_value (acc * 10 + 8) l
  | Decimal.D9 l => uint_value (acc * 10 + 9) l
  end.

(** ["^" + v] where [v] is text or [undefined]. *)
Definition concat (prefix : string) (v : option string) : string :=
  String.append prefix match v with
                       | Some s => s
                       | None => "undefined"
                       end.

(** What [req.query.<name>] gives: [undefined] or the parameter's text. *)
Definition of_query (p : option string) : value :=
  match p with
  | None => VUndefined
  | Some s => VString s
  end.

End JS.


(* ================================================================== *)
(** ** Patterns: [new RegExp("^" + text, "i")] *)
(* ================================================================== *)

Module Pattern.

(** The patterns interpreted here: literal characters, [.], and an atom
    followed by [*].  [Void] and [Alt] arise only as derivatives. *)
Inductive regex : Type :=
| Void
| Eps
| Chr (c : ascii)
| Any
| Seq (r1 r2 : regex)
| Alt (r1 r2 : regex)
| Star (r : regex).

(** The characters with a meaning of their own in a pattern. *)
Definition syntax_characters : list ascii :=
  list_ascii_of_string "^$\.*+?()[]{}|".

Definition is_syntax_character (c : ascii) : bool :=
  existsb (Ascii.eqb c) syntax_characters.

Definition atom (c : ascii) : option regex :=
  if Ascii.eqb c "." then Some Any
  else if is_syntax_character c then None
  else Some (Chr c).

(** A sequence of atoms, each optionally starred.  Text that uses any other
    pattern syntax, or that the constructor rejects (a [*] with nothing to
    repeat), is [None]. *)
Fixpoint parse (s : list ascii) : option regex :=
  match s with
  | [] => Some Eps
  | c :: rest =>
      a <- atom c ;;
      match rest with
      | star :: rest' =>
          if Ascii.eqb star "*"
          then r <- parse rest' ;; Some (Seq (Star a) r)
          else r <- parse rest ;; Some (Seq a r)
      | [] => Some (Seq a Eps)
      end
  end.

(** [new RegExp(source, "i")] for a source that starts with [^], as every
    pattern of the handlers does. *)
Definition RegExp (source : string) : option regex :=
  match list_ascii_of_string source with
  | c :: body => if Ascii.eqb c "^" then parse body else None
  | [] => None
  end.

(** Flag [i]: two units match when they have the same upper case.  Below
    256 the units whose upper case is another single unit below 256 are the
    letters a-z and the accented letters U+00E0-U+00FE, the division sign
    U+00F7 apart; the upper case lies 32 below.  The sharp s (upper case of
    two units), the micro sign and the y with diaeresis (upper cases above
    255) match themselves only, as every other unit does. *)
Definition canonicalize (c : ascii) : ascii :=
  let n := nat_of_ascii c in
  if ((Nat.leb 97 n && Nat.leb n 122)
      || (Nat.leb 224 n && Nat.leb n 254 && negb (Nat.eqb n 247)))%bool
  then ascii_of_nat (n - 32)
  else c.

Definition is_line_terminator (c : ascii) : bool :=
  (Nat.eqb (nat_of_ascii c) 10 || Nat.eqb (nat_of_ascii c) 13)%bool.

Fixpoint nullable (r : regex) : bool :=
  match r with
  | Void => false
  | Eps => true
  | Chr _ => false
  | Any => false
  | Seq r1 r2 => nullable r1 && nullable r2
  | Alt r1 r2 => nullable r1 || nullable r2
  | Star _ => true
  end.

(** What is left of [r] to match after the character [c]. *)
Fixpoint derive (c : ascii) (r : regex) : regex :=
  match r with
  | Void => Void
  | Eps => Void
  | Chr a => if Ascii.eqb (canonicalize a) (canonicalize c) then Eps else Void
  | Any => if is_line_terminator c then Void else Eps
  | Seq r1 r2 =>
      if nullable r1
      then Alt (Seq (derive c r1) r2) (derive c r2)
      else Seq (derive c r1) r2
  | Alt r1 r2 => Alt (derive c r1) (derive c r2)
  | Star r1 => Seq (derive c r1) (Star r1)
  end.

(** The anchored pattern matches when it matches some prefix of the text. *)
Fixpoint matches_prefix (r : regex) (s : list ascii) : bool :=
  nullable r ||
  match s with
  | [] => false
  | c :: rest => matches_prefix (derive c r) rest
  end.

Definition test (r : regex) (s : string) : bool :=
  matches_prefix r (list_ascii_of_string s).

(** [text] starts with [prefix], letters compared without case: what the
    comment above [POST /search/heroes/by-name] asks for. *)
Fixpoint starts_with_ci (prefix text : list ascii) : bool :=
  match prefix, text with
  | [], _ => true
  | _ :: _, [] => false
  | p :: prefix', c :: text' =>
      Ascii.eqb (canonicalize p) (canonicalize c) && starts_with_ci prefix' text'
  end.

(** The pattern that spells out the characters of [q]. *)
Definition literal (q : list ascii) : regex :=
  fold_right (fun c r => Seq (Chr c) r) Eps q.

(** Text with no character that has a meaning of its own in a pattern. *)
Definition plain (q : list ascii) : Prop :=
  forallb (fun c => negb (is_syntax_character c)) q = true.

End Pattern.

(* ================================================================== *)
(** ** The record store *)
(* ================================================================== *)

(** Modelled from the spec: the record store.  [models/hero],
    [models/comment] and the document database behind them are not among
    the sources; the records, the filter predicates (exact match, pattern
    match on text, numeric lower bound, conjunction), sort, skip, limit,
    count, insert and reference resolution follow sections 3, 4.1 and 6 of
    the specification.  A hero's powerstats are its six integer stats. *)
Record Powerstats : Type := {
  intelligence : Z;
  strength : Z;
  speed : Z;
  durability : Z;
  power : Z;
  combat : Z
}.

(** [powerstats[key]] *)
Definition stat (p : Powerstats) (key : string) : option Z :=
  if String.eqb key "intelligence" then Some (intelligence p)
  else if String.eqb key "strength" then Some (strength p)
  else if String.eqb key "speed" then Some (speed p)
  else if String.eqb key "durability" then Some (durability p)
  else if String.eqb key "power" then Some (power p)
  else if String.eqb key "combat" then Some (combat p)
  else None.

(** A stored field is text or a number. *)
Inductive field : Type :=
| Text (s : string)
| Number (z : Z).

(** One entry of a filter document, as the handlers write them.  An operand
    is [None] when the handler put [undefined] there. *)
Inductive condition : Type :=
| Regex (r : Pattern.regex)
| Equals (v : option string)
| Gte (v : option Z).

(** A filter document: field conditions, all of which must hold, or
    [{$and: [...]}]. *)
#[warnings="-register-all"] Inductive filter : Type :=
| Fields (cs : list (string * condition))
| And (fs : list filter).

(** Modelled from the spec: how the store decides one clause on a record,
    absent from the sources.  A pattern is tested on a text field, an exact
    value compared with a text field, a lower bound with a numeric field; a
    field of another kind, or no field, fails the clause.  On an undefined
    operand the store answers [undefined_admits]. *)
Definition holds (undefined_admits : bool) (get : string -> option field)
    (c : string * condition) : bool :=
  match snd c, get (fst c) with
  | Regex r, Some (Text s) => Pattern.test r s
  | Equals (Some v), Some (Text s) => String.eqb v s
  | Gte (Some t), Some (Number z) => t <=? z
  | Equals None, _ => undefined_admits
  | Gte None, _ => undefined_admits
  | _, _ => false
  end.

(** Modelled from the spec: a record passes a filter when every clause
    holds; [$and] is the conjunction of its filters. *)
Fixpoint satisfies (undefined_admits : bool) (get : string -> option field)
    (f : filter) : bool :=
  match f with
  | Fields cs => forallb (holds undefined_admits get) cs
  | And fs => forallb (satisfies undefined_admits get) fs
  end.

(** Modelled from the spec: [.skip(n)] of the store, absent from the
    sources.  The store takes a natural number of records to pass over; any
    other argument is a rejected call. *)
Definition skip {A : Type} (n : JS.number) (l : list A) : option (list A) :=
  match n with
  | JS.Num z => if 0 <=? z then Some (skipn (Z.to_nat z) l) else None
  | JS.NaN => None
  end.

(** [.limit(n)] *)
Definition limit {A : Type} (n : Z) (l : list A) : list A :=
  firstn (Z.to_nat n) l.

(** Modelled from the spec: [.sort(...)] of the store, absent from the
    sources.  A stable insertion sort; [before x y] says that [x] may stand
    in front of [y]. *)
Fixpoint insert_by {A : Type} (before : A -> A -> bool) (x : A) (l : list A)
    : list A :=
  match l with
  | [] => [x]
  | y :: rest => if before x y then x :: l else y :: insert_by before x rest
  end.

Definition sort_by {A : Type} (before : A -> A -> bool) (l : list A) : list A :=
  fold_right (insert_by before) [] l.

Module Hero.

(** Modelled from the spec: the hero record of [models/hero], absent from
    the sources: identifier, name, the gender among its appearance
    attributes, powerstats. *)
Record t : Type := {
  _id : string;
  name : string;
  gender : string;
  powerstats : Powerstats
}.

(** The field of a hero document at a dotted path. *)
Definition get (h : t) (path : string) : option field :=
  if String.eqb path "_id" then Some (Text (_id h))
  else if String.eqb path "name" then Some (Text (name h))
  else if String.eqb path "appearance.gender" then Some (Text (gender h))
  else if String.prefix "powerstats." path
       then option_map Number
              (stat (powerstats h) (substring 11 (String.length path - 11) path))
       else None.

Definition matches (undefined_admits : bool) (f : filter) (h : t) : bool :=
  satisfies undefined_admits (get h) f.

(** [Hero.find(f)]: the matching heroes, in collection order. *)
Definition find (undefined_admits : bool) (collection : list t) (f : filter)
    : list t :=
  List.filter (matches undefined_admits f) collection.

(** [Hero.countDocuments(f)] and [Hero.find(f).countDocuments({})] *)
Definition countDocuments (undefined_admits : bool) (collection : list t)
    (f : filter) : Z :=
  Z.of_nat (List.length (find undefined_admits collection f)).

Definition findById (collection : list t) (id : string) : option t :=
  List.find (fun h => String.eqb (_id h) id) collection.

(** [.sort({name: 'asc'})] *)
Definition name_asc (x y : t) : bool := String.leb (name x) (name y).

End Hero.

Module Comment.

(** Modelled from the spec: the comment record of [models/comment], absent
    from the sources: identifier, the id of its hero, text, creation time. *)
Record t : Type := {
  _id : nat;
  hero : string;
  text : string;
  createdAt : Z
}.

(** A comment read with [.populate('hero')]: the id gives way to the hero
    record, or to [null] when no hero has that id. *)
Record populated : Type := {
  p_id : nat;
  p_hero : option Hero.t;
  p_text : string;
  p_createdAt : Z
}.

Definition populate (heroes : list Hero.t) (c : t) : populated :=
  {| p_id := _id c;
     p_hero := Hero.findById heroes (hero c);
     p_text := text c;
     p_createdAt := createdAt c |}.

(** [Comment.find({hero: id})], in collection order. *)
Definition find (collection : list t) (id : string) : list t :=
  List.filter (fun c => String.eqb (hero c) id) collection.

Definition findById (collection : list t) (id : nat) : option t :=
  List.find (fun c => Nat.eqb (_id c) id) collection.

(** [.sort({createdAt: 'desc'})] *)
Definition createdAt_desc (x y : populated) : bool :=
  p_createdAt y <=? p_createdAt x.

End Comment.

(** The database: both collections, and the identifier the next inserted
    comment receives. *)
Record Store : Type := {
  heroes : list Hero.t;
  comments : list Comment.t;
  next_id : nat
}.

(** Modelled from the spec: [comment.save()] of [models/comment], absent
    from the sources.  At time [now] the store assigns the identifier and
    the creation time, and appends the record. *)
Definition save (db : Store) (now : Z) (hero : string) (text : string)
    : Store * Comment.t :=
  let c := {| Comment._id := next_id db;
              Comment.hero := hero;
              Comment.text := text;
              Comment.createdAt := now |} in
  ({| heroes := heroes db;
      comments := comments db ++ [c];
      next_id := S (next_id db) |}, c).

(* ================================================================== *)
(** ** The handlers of routers/hero.js *)
(* ================================================================== *)

Definition DEFAULT_HEROES_PER_PAGE : Z := 10.
Definition DEFAULT_COMMENTS_PER_PAGE : Z := 3.

(** What a handler hands to [.find(...).skip(...).limit(...)]. *)
Record FindCall (F : Type) : Type := {
  conditions : F;
  skip_arg : JS.number;
  limit_arg : Z
}.
Arguments conditions {F} _.
Arguments skip_arg {F} _.
Arguments limit_arg {F} _.

(** The body a list handler sends or renders. *)
Record Response (A : Type) : Type := {
  data : list A;
  count : Z;
  pagination : list (string * JS.number)
}.
Arguments data {A} _.
Arguments count {A} _.
Arguments pagination {A} _.

Definition fields_of {A : Type} (r : Response A) : list string :=
  map fst (pagination r).

(** [(page - 1) * perPage] *)
Definition skip_of (page : JS.value) (per_page : Z) : option JS.number :=
  n <- JS.ToNumber page ;;
  Some (JS.mul (JS.sub n (JS.Num 1)) (JS.Num per_page)).

(** [Math.ceil(count / perPage)] *)
Definition page_count (count per_page : Z) : JS.number :=
  JS.Num (JS.ceil_div count per_page).

Section Handlers.

(** Whether the store admits a record on a clause whose operand is
    [undefined]: the specification leaves this to the store. *)
Variable undefined_admits : bool.

(** [Hero.find(f).sort({name: 'asc'}).skip(s).limit(l)] *)
Definition run_heroes (db : Store) (call : FindCall filter)
    : option (list Hero.t) :=
  rest <- skip (skip_arg call)
            (sort_by Hero.name_asc
               (Hero.find undefined_admits (heroes db) (conditions call))) ;;
  Some (limit (limit_arg call) rest).

(** *** GET /heroes *)

(** [var page = req.query.page; if (isNaN(page)) { page = 1; }] *)
Definition list_heroes_page (q_page : option string) : option JS.value :=
  let page := JS.of_query q_page in
  nan <- JS.isNaN page ;;
  Some (if nan : bool then JS.VNumber (JS.Num 1) else page).

Definition list_heroes_call (q_page : option string)
    : option (FindCall filter) :=
  page <- list_heroes_page q_page ;;
  s <- skip_of page DEFAULT_HEROES_PER_PAGE ;;
  Some {| conditions := Fields [];
          skip_arg := s;
          limit_arg := DEFAULT_HEROES_PER_PAGE |}.

Definition list_heroes (db : Store) (q_page : option string)
    : option (Response Hero.t) :=
  page <- list_heroes_page q_page ;;
  n <- JS.ToNumber page ;;
  let previousPage := JS.sub n (JS.Num 1) in
  p <- JS.parseInt page ;;
  let nextPage := JS.add p (JS.Num 1) in
  first <- JS.loose_eq page (JS.Num 1) ;;
  let previousPage := if first : bool then JS.Num 1 else previousPage in
  let count := Hero.countDocuments undefined_admits (heroes db) (Fields []) in
  let pageCount := page_count count DEFAULT_HEROES_PER_PAGE in
  call <- list_heroes_call q_page ;;
  results <- run_heroes db call ;;
  Some {| data := results;
          count := count;
          pagination := [("previousPage", previousPage);
                         ("nextPage", nextPage);
                         ("page", p);
                         ("pageCount", pageCount)] |}.

(** *** GET /heroes/:id *)

Definition get_hero (db : Store) (id : string) : list Hero.t :=
  Hero.find undefined_admits (heroes db) (Fields [("_id", Equals (Some id))]).

(** *** POST /search/heroes/by-name *)

(** [{name: new RegExp("^" + req.body.query, "i")}] *)
Definition by_name_filter (query : option string) : option filter :=
  qname <- Pattern.RegExp (JS.concat "^" query) ;;
  Some (Fields [("name", Regex qname)]).

Definition search_by_name_call (q_page query : option string)
    : option (FindCall filter) :=
  f <- by_name_filter query ;;
  s <- skip_of (JS.of_query q_page) DEFAULT_HEROES_PER_PAGE ;;
  Some {| conditions := f;
          skip_arg := s;
          limit_arg := DEFAULT_HEROES_PER_PAGE |}.

Definition search_by_name (db : Store) (q_page query : option string)
    : option (Response Hero.t) :=
  call <- search_by_name_call q_page query ;;
  results <- run_heroes db call ;;
  let count :=
    Hero.countDocuments undefined_admits (heroes db) (conditions call) in
  let pageCount := page_count count DEFAULT_HEROES_PER_PAGE in
  p <- JS.parseInt (JS.of_query q_page) ;;
  Some {| data := results;
          count := count;
          pagination := [("page", p); ("pageCount", pageCount)] |}.

(** *** POST /search/heroes/by-min-stats *)

(** The request body: the keys of the JSON object in the order [for ... in]
    visits them, each with its threshold. *)
Definition StatsBody : Type := list (string * Z).

(** [for (let key in powerstats) conditions.push({[`powerstats.${key}`]:
    {$gte: powerstats[key]}})], then [{$and: conditions}] *)
Definition by_min_stats_filter (powerstats : StatsBody) : filter :=
  And (map (fun kv => Fields [(String.append "powerstats." (fst kv),
                               Gte (Some (snd kv)))])
           powerstats).

Definition search_by_min_stats_call (q_page : option string)
    (powerstats : StatsBody) : option (FindCall filter) :=
  s <- skip_of (JS.of_query q_page) DEFAULT_HEROES_PER_PAGE ;;
  Some {| conditions := by_min_stats_filter powerstats;
          skip_arg := s;
          limit_arg := DEFAULT_HEROES_PER_PAGE |}.

Definition search_by_min_stats (db : Store) (q_page : option string)
    (powerstats : StatsBody) : option (Response Hero.t) :=
  call <- search_by_min_stats_call q_page powerstats ;;
  results <- run_heroes db call ;;
  let count :=
    Hero.countDocuments undefined_admits (heroes db) (conditions call) in
  let pageCount := page_count count DEFAULT_HEROES_PER_PAGE in
  p <- JS.parseInt (JS.of_query q_page) ;;
  Some {| data := results;
          count := count;
          pagination := [("page", p); ("pageCount", pageCount)] |}.

(** *** GET /search *)

(** The query string of the combined search.  The handler computes with
    [page] and [name]; gender and the six thresholds go to the store as they
    are, a threshold being read there as the integer it spells. *)
Record SearchQuery : Type := {
  q_page : option string;
  q_name : option string;
  q_gender : option string;
  q_intelligence : option Z;
  q_strength : option Z;
  q_speed : option Z;
  q_durability : option Z;
  q_power : option Z;
  q_combat : option Z
}.

(** The filter of the [find] call, lines 192-200. *)
Definition search_filter (q : SearchQuery) : option filter :=
  qname <- Pattern.RegExp (JS.concat "^" (q_name q)) ;;
  Some (Fields [("name", Regex qname);
                ("appearance.gender", Equals (q_gender q));
                ("powerstats.intelligence", Gte (q_intelligence q));
                ("powerstats.strength", Gte (q_strength q));
                ("powerstats.speed", Gte (q_speed q));
                ("powerstats.durability", Gte (q_durability q));
                ("powerstats.power", Gte (q_power q));
                ("powerstats.combat", Gte (q_combat q))]).

(** The same filter with the clause on [path] left out: what the
    specification asks of a parameter that is not set. *)
Definition without_clause (path : string) (f : filter) : filter :=
  match f with
  | Fields cs =>
      Fields (List.filter (fun c => negb (String.eqb (fst c) path)) cs)
  | And fs => And fs
  end.

(** The filter of the count, line 206. *)
Definition search_count_filter (q : SearchQuery) : option filter :=
  qname <- Pattern.RegExp (JS.concat "^" (q_name q)) ;;
  Some (Fields [("name", Regex qname)]).

Definition search_call (q : SearchQuery) : option (FindCall filter) :=
  f <- search_filter q ;;
  s <- skip_of (JS.of_query (q_page q)) DEFAULT_HEROES_PER_PAGE ;;
  Some {| conditions := f;
          skip_arg := s;
          limit_arg := DEFAULT_HEROES_PER_PAGE |}.

Definition search (db : Store) (q : SearchQuery) : option (Response Hero.t) :=
  call <- search_call q ;;
  results <- run_heroes db call ;;
  counted <- search_count_filter q ;;
  let count := Hero.countDocuments undefined_admits (heroes db) counted in
  let pageCount := page_count count DEFAULT_HEROES_PER_PAGE in
  p <- JS.parseInt (JS.of_query (q_page q)) ;;
  Some {| data := results;
          count := count;
          pagination := [("page", p); ("pageCount", pageCount)] |}.

End Handlers.

(** *** POST /heroes/:id/comments *)

(** The handler at time [now]: the new database, and the [comment] field of
    the body it sends ([null] when the re-read finds nothing). *)
Definition create_comment (db : Store) (now : Z) (id commentText : string)
    : Store * option Comment.populated :=
  let '(db', comment) := save db now id commentText in
  (db', option_map (Comment.populate (heroes db'))
          (Comment.findById (comments db') (Comment._id comment))).

(** *** GET /heroes/:id/comments *)

Definition list_comments_call (id : string) (q_page : option string)
    : option (FindCall string) :=
  s <- skip_of (JS.of_query q_page) DEFAULT_COMMENTS_PER_PAGE ;;
  Some {| conditions := id;
          skip_arg := s;
          limit_arg := DEFAULT_COMMENTS_PER_PAGE |}.

(** [Comment.find({hero: id}).populate('hero').sort({createdAt: 'desc'})
    .skip(s).limit(l)] *)
Definition run_comments (db : Store) (call : FindCall string)
    : option (list Comment.populated) :=
  rest <- skip (skip_arg call)
            (sort_by Comment.createdAt_desc
               (map (Comment.populate (heroes db))
                    (Comment.find (comments db) (conditions call)))) ;;
  Some (limit (limit_arg call) rest).

Definition list_comments (db : Store) (id : string) (q_page : option string)
    : option (Response Comment.populated) :=
  call <- list_comments_call id q_page ;;
  results <- run_comments db call ;;
  let count := Z.of_nat (List.length (Comment.find (comments db) id)) in
  let pageCount := page_count count DEFAULT_COMMENTS_PER_PAGE in
  p <- JS.parseInt (JS.of_query q_page) ;;
  Some {| data := results;
          count := count;
          pagination := [("page", p); ("pageCount", pageCount)] |}.

(* ================================================================== *)
(** ** Sample records *)
(* ================================================================== *)

Module Sample.

Definition stats (n : Z) : Powerstats :=
  {| intelligence := n; strength := n; speed := n;
     durability := n; power := n; combat := n |}.

Definition flash : Hero.t :=
  {| Hero._id := "5f1a"; Hero.name := "Flash"; Hero.gender := "Male";
     Hero.powerstats := stats 50 |}.

Definition flora : Hero.t :=
  {| Hero._id := "5f1b"; Hero.name := "Flora"; Hero.gender := "Female";
     Hero.powerstats := stats 60 |}.

Definition only_flash : Store :=
  {| heroes := [flash]; comments := []; next_id := 0%nat |}.

Definition flora_and_flash : Store :=
  {| heroes := [flora; flash]; comments := []; next_id := 0%nat |}.

Definition twenty_five : Store :=
  {| heroes := repeat flora 12 ++ repeat flash 13;
     comments := [];
     next_id := 0%nat |}.

(** A query string that sets every parameter of the combined search. *)
Definition full_query (page name : option string) (gender : string)
    (least : Z) : SearchQuery :=
  {| q_page := page; q_name := name; q_gender := Some gender;
     q_intelligence := Some least; q_strength := Some least;
     q_speed := Some least; q_durability := Some least;
     q_power := Some least; q_combat := Some least |}.

End Sample.

(* ================================================================== *)
(** ** Pages of a list, and what a response promises *)
(* ================================================================== *)

(** The [n]-th run of [size] records of a list, pages counted from 1: what
    [.skip((n - 1) * size).limit(size)] leaves of it. *)
Definition window {A : Type} (size n : Z) (l : list A) : list A :=
  firstn (Z.to_nat size) (skipn (Z.to_nat ((n - 1) * size)) l).

(** The data of the response, or no records when there is no response. *)
Definition data_of {A : Type} (r : option (Response A)) : list A :=
  match r with
  | Some x => data x
  | None => []
  end.

(** [pageCount] pages of [per_page] records hold [count] records, and one
    page fewer does not. *)
Definition enough_pages {A : Type} (per_page : Z) (r : Response A) : Prop :=
  exists n : Z,
    In ("pageCount", JS.Num n) (pagination r)
    /\ per_page * (n - 1) < count r <= per_page * n.

(** The comment identifiers in use are distinct and lie below the next one. *)
Definition well_numbered (db : Store) : Prop :=
  NoDup (map Comment._id (comments db))
  /\ forall c, In c (comments db) -> (Comment._id c < next_id db)%nat.

(* ================================================================== *)
(** ** The routes of the application *)
(* ================================================================== *)

Module Routes.

(** The request methods followed here.  [HEAD] and [OPTIONS], which the
    framework and the CORS middleware answer themselves, are left out. *)
Inductive method : Type := GET | POST | PUT | PATCH | DELETE.

Definition method_eqb (a b : method) : bool :=
  match a, b with
  | GET, GET | POST, POST | PUT, PUT | PATCH, PATCH | DELETE, DELETE => true
  | _, _ => false
  end.

(** A piece of a route path between two slashes: fixed text or [:name]. *)
Inductive piece : Type :=
| Lit (s : string)
| Param (name : string).

(** A route path: its pieces, or ['*']. *)
Inductive pattern : Type :=
| Path (pieces : list piece)
| Any.

(** The handlers of [routers/hero.js] and of the application file. *)
Inductive handler : Type :=
| ListHeroes
| GetHero
| SearchByName
| SearchByMinStats
| Search
| CreateComment
| ListComments
| Welcome
| SearchPage
| NotFound.

Record route : Type := {
  r_method : method;
  r_pattern : pattern;
  r_handler : handler
}.

(** [routers/hero.js], in the order the routes are registered. *)
Definition router : list route :=
  [ {| r_method := GET; r_pattern := Path [Lit "heroes"];
       r_handler := ListHeroes |};
    {| r_method := GET; r_pattern := Path [Lit "heroes"; Param "id"];
       r_handler := GetHero |};
    {| r_method := POST;
       r_pattern := Path [Lit "search"; Lit "heroes"; Lit "by-name"];
       r_handler := SearchByName |};
    {| r_method := POST;
       r_pattern := Path [Lit "search"; Lit "heroes"; Lit "by-min-stats"];
       r_handler := SearchByMinStats |};
    {| r_method := GET; r_pattern := Path [Lit "search"];
       r_handler := Search |};
    {| r_method := POST;
       r_pattern := Path [Lit "heroes"; Param "id"; Lit "comments"];
       r_handler := CreateComment |};
    {| r_method := GET;
       r_pattern := Path [Lit "heroes"; Param "id"; Lit "comments"];
       r_handler := ListComments |} ].

(** The application: [app.use(heroRouter)], then [app.get('/')],
    [app.get('/search')] and [app.get('*')]. *)
Definition app : list route :=
  router ++
  [ {| r_method := GET; r_pattern := Path []; r_handler := Welcome |};
    {| r_method := GET; r_pattern := Path [Lit "search"];
       r_handler := SearchPage |};
    {| r_method := GET; r_pattern := Any; r_handler := NotFound |} ].

(** Fixed text is compared without regard to case, the framework's default. *)
Definition same_text (a b : string) : bool :=
  String.eqb
    (string_of_list_ascii (map Pattern.canonicalize (list_ascii_of_string a)))
    (string_of_list_ascii (map Pattern.canonicalize (list_ascii_of_string b))).

(** A request path is given by its pieces: the texts between the slashes
    after the first one, as the request spells them (not decoded), so that
    [/] is [[""]] and [/heroes/] is [["heroes"; ""]].  A parameter takes one
    piece that is not empty, and one slash may close the path. *)
Fixpoint fits (pieces : list piece) (path : list string) : bool :=
  match pieces, path with
  | [], [] => true
  | [], [last] => String.eqb last ""
  | Lit s :: pieces', x :: path' => same_text s x && fits pieces' path'
  | Param _ :: pieces', x :: path' =>
      negb (String.eqb x "") && fits pieces' path'
  | _, _ => false
  end.

(** *** Decoding a parameter *)

(** The text a parameter took is decoded with [decodeURIComponent] before
    any handler is called.  [tokens] reads it: a character other than [%]
    stands for itself ([None]), and [%] with two hexadecimal digits for an
    octet ([Some]); a [%] followed by anything else does not decode. *)
Fixpoint tokens (s : list ascii) : option (list (option Z)) :=
  match s with
  | [] => Some []
  | c :: rest =>
      if Ascii.eqb c "%" then
        match rest with
        | h :: l :: rest' =>
            match JS.digit_value 16 h, JS.digit_value 16 l with
            | Some x, Some y =>
                option_map (cons (Some (16 * x + y))) (tokens rest')
            | _, _ => None
            end
        | _ => None
        end
      else option_map (cons None) (tokens rest)
  end.

Definition continuation : Z * Z := (128, 191).

(** The octets that may follow a first octet in well-formed UTF-8, each as
    a range; [None] for an octet that cannot come first. *)
Definition following (b : Z) : option (list (Z * Z)) :=
  if b <? 128 then Some []
  else if (194 <=? b) && (b <=? 223) then Some [continuation]
  else if b =? 224 then Some [(160, 191); continuation]
  else if b =? 237 then Some [(128, 159); continuation]
  else if (225 <=? b) && (b <=? 239) then Some [continuation; continuation]
  else if b =? 240 then Some [(144, 191); continuation; continuation]
  else if (241 <=? b) && (b <=? 243)
       then Some [continuation; continuation; continuation]
  else if b =? 244 then Some [(128, 143); continuation; continuation]
  else None.

(** The octets spell well-formed UTF-8, each of them written with [%];
    [expect] holds the ranges of the octets still due. *)
Fixpoint well_formed (expect : list (Z * Z)) (ts : list (option Z)) : bool :=
  match ts with
  | [] => match expect with [] => true | _ :: _ => false end
  | t :: ts' =>
      match expect, t with
      | [], None => well_formed [] ts'
      | [], Some b =>
          match following b with
          | Some due => well_formed due ts'
          | None => false
          end
      | range :: due, Some b =>
          (fst range <=? b) && (b <=? snd range) && well_formed due ts'
      | _ :: _, None => false
      end
  end.

(** [decodeURIComponent] does not throw on the text. *)
Definition decodes (piece : string) : bool :=
  match tokens (list_ascii_of_string piece) with
  | Some ts => well_formed [] ts
  | None => false
  end.

(** The texts that the parameters of a route path take from a request path
    that fits it. *)
Fixpoint taken (pieces : list piece) (path : list string) : list string :=
  match pieces, path with
  | Lit _ :: pieces', _ :: path' => taken pieces' path'
  | Param _ :: pieces', x :: path' => x :: taken pieces' path'
  | _, _ => []
  end.

(** What becomes of a request. *)
Inductive outcome : Type :=
| Reached (h : handler)
| Refused
| Unmatched.

(** The routes are tried in order.  A route whose path does not fit is
    passed over.  If the path fits and a parameter does not decode, the
    request goes to the error middleware, whatever its method, and no later
    route is tried; for ['*'] the parameter is the whole path, which decodes
    when each of its pieces does.  Otherwise the route answers if it is registered for the
    method of the request, and is passed over if not.  No handler of the
    application passes a request on. *)
Fixpoint route_request (routes : list route) (m : method) (path : list string)
    : outcome :=
  match routes with
  | [] => Unmatched
  | r :: rest =>
      let answer :=
        if method_eqb (r_method r) m then Reached (r_handler r)
        else route_request rest m path in
      match r_pattern r with
      | Any => if forallb decodes path then answer else Refused
      | Path pieces =>
          if fits pieces path then
            if forallb decodes (taken pieces path) then answer else Refused
          else route_request rest m path
      end
  end.

(** The handler that answers the request, if one does. *)
Definition dispatch (m : method) (path : list string) : option handler :=
  match route_request app m path with
  | Reached h => Some h
  | Refused => None
  | Unmatched => None
  end.

End Routes.

(* ================================================================== *)
(** ** More sample records *)
(* ================================================================== *)

Module Sample2.

Definition undefined_man : Hero.t :=
  {| Hero._id := "5f1c"; Hero.name := "Undefined Man"; Hero.gender := "Male";
     Hero.powerstats := Sample.stats 50 |}.

Definition with_undefined_man : Store :=
  {| heroes := [Sample.flash; undefined_man]; comments := [];
     next_id := 0%nat |}.

Definition first_comment : Comment.t :=
  {| Comment._id := 0; Comment.hero := "5f1a"; Comment.text := "first";
     Comment.createdAt := 100 |}.

Definition one_comment : Store :=
  {| heroes := [Sample.flash; Sample.flora]; comments := [first_comment];
     next_id := 1%nat |}.

End Sample2.
Example to_number_2 : JS.ToNumber (JS.VString "2") = Some (JS.Num 2).
Proof. reflexivity. Qed.
Example to_number_pad : JS.ToNumber (JS.VString " 12 ") = Some (JS.Num 12).
Proof. reflexivity. Qed.
Example to_number_word : JS.ToNumber (JS.VString "abc") = Some JS.NaN.
Proof. reflexivity. Qed.
Example to_number_empty : JS.ToNumber (JS.VString "") = Some (JS.Num 0).
Proof. reflexivity. Qed.
Example to_number_hex : JS.ToNumber (JS.VString "0x1f") = Some (JS.Num 31).
Proof. reflexivity. Qed.
Example to_number_frac : JS.ToNumber (JS.VString "1.5") = None.
Proof. reflexivity. Qed.
Example to_number_exp : JS.ToNumber (JS.VString "1e3") = None.
Proof. reflexivity. Qed.
Example to_number_bad : JS.ToNumber (JS.VString "1.5.5") = Some JS.NaN.
Proof. reflexivity. Qed.
Example to_number_junk : JS.ToNumber (JS.VString "2abc") = Some JS.NaN.
Proof. reflexivity. Qed.
Example to_number_neg : JS.ToNumber (JS.VString "-3") = Some (JS.Num (-3)).
Proof. reflexivity. Qed.
Example parse_int_junk : JS.parseInt (JS.VString "2abc") = Some (JS.Num 2).
Proof. reflexivity. Qed.
Example parse_int_frac : JS.parseInt (JS.VString "1.5") = Some (JS.Num 1).
Proof. reflexivity. Qed.
Example parse_int_word : JS.parseInt (JS.VString "abc") = Some JS.NaN.
Proof. reflexivity. Qed.
Example parse_int_hex : JS.parseInt (JS.VString "0x10") = Some (JS.Num 16).
Proof. reflexivity. Qed.

(* ================================================================== *)
(** ** The failure monad, sorting and paging *)
(* ================================================================== *)

Lemma bind_some {A B : Type} (m : option A) (k : A -> option B) (b : B) :
  bind m k = Some b -> exists a, m = Some a /\ k a = Some b.
Proof. destruct m as [a|]; [now exists a|discriminate]. Qed.

(** Splits a hypothesis [x <- m ;; k = Some b] into its two steps. *)
Ltac bind_inv H :=
  let a := fresh "a" in
  let Ha := fresh "H" a in
  apply bind_some in H; destruct H as (a & Ha & H).

Section Sorting.

Context {A : Type} (before : A -> A -> bool).

Lemma insert_by_perm (x : A) (l : list A) :
  Permutation.Permutation (insert_by before x l) (x :: l).
Proof.
  induction l as [|y l IH]; cbn; [apply Permutation.Permutation_refl|].
  destruct (before x y); [apply Permutation.Permutation_refl|].
  eapply Permutation.Permutation_trans;
    [apply Permutation.perm_skip, IH|apply Permutation.perm_swap].
Qed.

(** Sorting rearranges: nothing is added, lost or repeated. *)
Lemma sort_by_perm (l : list A) :
  Permutation.Permutation (sort_by before l) l.
Proof.
  induction l as [|x l IH]; cbn; [constructor|].
  eapply Permutation.Permutation_trans;
    [apply insert_by_perm|apply Permutation.perm_skip, IH].
Qed.

Lemma sort_by_In (x : A) (l : list A) : In x (sort_by before l) <-> In x l.
Proof.
  split; apply Permutation.Permutation_in;
    [|apply Permutation.Permutation_sym]; apply sort_by_perm.
Qed.

Hypothesis before_total : forall x y, before x y = true \/ before y x = true.

Lemma insert_by_sorted (x : A) (l : list A) :
  Sorted.Sorted (fun a b => before a b = true) l ->
  Sorted.Sorted (fun a b => before a b = true) (insert_by before x l).
Proof.
  induction 1 as [|y l Hl IH Hy]; cbn; [repeat constructor|].
  destruct (before x y) eqn:Hxy.
  - repeat constructor; assumption.
  - constructor; [exact IH|].
    destruct (before_total x y) as [Hc|Hyx]; [congruence|].
    destruct Hy as [|z l' Hyz]; cbn; [now constructor|].
    destruct (before x z); now constructor.
Qed.

(** Each record of the sorted list may stand in front of the next. *)
Lemma sort_by_sorted (l : list A) :
  Sorted.Sorted (fun a b => before a b = true) (sort_by before l).
Proof.
  induction l as [|x l IH]; cbn; [constructor|now apply insert_by_sorted].
Qed.

End Sorting.

(** A record newer than all the others goes to the front. *)
Lemma sort_by_snoc {A : Type} (before : A -> A -> bool) (l : list A) (x : A) :
  (forall y, In y l -> before y x = false) ->
  sort_by before (l ++ [x]) = x :: sort_by before l.
Proof.
  unfold sort_by. induction l as [|a l IH]; intros Hx; [reflexivity|].
  cbn. rewrite IH by (intros y Hy; apply Hx; now right).
  cbn. now rewrite (Hx a (or_introl eq_refl)).
Qed.

Lemma In_firstn {A : Type} (n : nat) (l : list A) (x : A) :
  In x (firstn n l) -> In x l.
Proof.
  intros Hx. rewrite <- (firstn_skipn n l). apply in_or_app. now left.
Qed.

Lemma In_skipn {A : Type} (n : nat) (l : list A) (x : A) :
  In x (skipn n l) -> In x l.
Proof.
  intros Hx. rewrite <- (firstn_skipn n l). apply in_or_app. now right.
Qed.

Lemma skip_In {A : Type} (n : JS.number) (l rest : list A) (x : A) :
  skip n l = Some rest -> In x rest -> In x l.
Proof.
  unfold skip. destruct n as [|z]; [discriminate|].
  destruct (0 <=? z); [|discriminate].
  intros [= <-]. apply In_skipn.
Qed.

Lemma skip_zero {A : Type} (l : list A) : skip (JS.Num 0) l = Some l.
Proof. reflexivity. Qed.

(** What [find(...).sort(...).skip(...).limit(...)] returns is in the
    collection and passes the filter. *)
Lemma run_heroes_In (u : bool) (db : Store) (call : FindCall filter)
    (results : list Hero.t) (h : Hero.t) :
  run_heroes u db call = Some results ->
  In h results ->
  In h (heroes db) /\ Hero.matches u (conditions call) h = true.
Proof.
  unfold run_heroes. intros Hrun Hin. bind_inv Hrun. injection Hrun as <-.
  unfold limit in Hin. apply In_firstn in Hin.
  apply (skip_In _ _ _ _ Ha) in Hin.
  apply sort_by_In in Hin. unfold Hero.find in Hin.
  now apply filter_In in Hin.
Qed.

Lemma filter_true {A : Type} (f : A -> bool) (l : list A) :
  (forall x, f x = true) -> List.filter f l = l.
Proof.
  intros Hf. induction l as [|x l IH]; cbn; [reflexivity|].
  now rewrite Hf, IH.
Qed.

(* ================================================================== *)
(** ** Patterns built from plain text *)
(* ================================================================== *)

Module PatternFacts.
Import Pattern.

Lemma atom_plain c : is_syntax_character c = false -> atom c = Some (Chr c).
Proof.
  intros Hc. unfold atom.
  destruct (Ascii.eqb c ".") eqn:Hdot.
  - apply Ascii.eqb_eq in Hdot. subst c. discriminate Hc.
  - now rewrite Hc.
Qed.

Lemma star_is_syntax c : Ascii.eqb c "*" = true -> is_syntax_character c = true.
Proof. intros H. apply Ascii.eqb_eq in H. now subst c. Qed.

Lemma parse_plain q : plain q -> parse q = Some (literal q).
Proof.
  unfold plain. induction q as [|c rest IH]; intros Hq; [reflexivity|].
  cbn [forallb] in Hq. apply andb_true_iff in Hq as [Hc Hrest].
  apply negb_true_iff in Hc.
  cbn [parse]. rewrite (atom_plain c Hc). cbn [bind].
  destruct rest as [|d rest']; [reflexivity|].
  destruct (Ascii.eqb d "*") eqn:Hd.
  - apply star_is_syntax in Hd. cbn [forallb] in Hrest.
    rewrite Hd in Hrest. discriminate Hrest.
  - rewrite (IH Hrest). reflexivity.
Qed.

Lemma matches_prefix_seq_void r s : matches_prefix (Seq Void r) s = false.
Proof. induction s as [|c s IH]; [reflexivity|exact IH]. Qed.

Lemma matches_prefix_alt a b s :
  matches_prefix (Alt a b) s = matches_prefix a s || matches_prefix b s.
Proof.
  revert a b. induction s as [|c s IH]; intros a b; cbn.
  - now rewrite !orb_false_r.
  - rewrite IH.
    destruct (nullable a), (nullable b); cbn;
      rewrite ?orb_true_r; try reflexivity.
Qed.

Lemma matches_prefix_seq_eps r s :
  matches_prefix (Seq Eps r) s = matches_prefix r s.
Proof.
  destruct s as [|c s]; cbn; [reflexivity|].
  now rewrite matches_prefix_alt, matches_prefix_seq_void.
Qed.

Lemma matches_prefix_literal q s :
  matches_prefix (literal q) s = starts_with_ci q s.
Proof.
  revert s. induction q as [|p q IH]; intros s.
  - destruct s; reflexivity.
  - destruct s as [|c s]; [reflexivity|]. cbn.
    destruct (Ascii.eqb (canonicalize p) (canonicalize c)); cbn.
    + now rewrite matches_prefix_seq_eps.
    + apply matches_prefix_seq_void.
Qed.

Lemma starts_with_ci_nil s : starts_with_ci [] s = true.
Proof. destruct s; reflexivity. Qed.

End PatternFacts.

(** A query of plain text gives the filter the comment above the handler
    describes: the names that start with it, letters compared without case. *)
Lemma by_name_plain_query (u : bool) (q : string) (h : Hero.t) :
  Pattern.plain (list_ascii_of_string q) ->
  exists f, by_name_filter (Some q) = Some f /\
            Hero.matches u f h =
              Pattern.starts_with_ci (list_ascii_of_string q)
                                     (list_ascii_of_string (Hero.name h)).
Proof.
  intros Hq. unfold by_name_filter, Pattern.RegExp. cbn.
  rewrite (PatternFacts.parse_plain _ Hq). cbn.
  eexists; split; [reflexivity|].
  unfold Hero.matches. cbn. unfold Pattern.test.
  now rewrite PatternFacts.matches_prefix_literal, andb_true_r.
Qed.

Example flash_matches_fla u :
  forall f, by_name_filter (Some "fla") = Some f -> Hero.matches u f Sample.flash = true.
Proof. intros f [= <-]. reflexivity. Qed.

Example flash_matches_FLA u :
  forall f, by_name_filter (Some "FLA") = Some f -> Hero.matches u f Sample.flash = true.
Proof. intros f [= <-]. reflexivity. Qed.

Example flash_matches_Fla u :
  forall f, by_name_filter (Some "Fla") = Some f -> Hero.matches u f Sample.flash = true.
Proof. intros f [= <-]. reflexivity. Qed.

(** Letters outside ASCII fold as flag [i] folds them: the query of the one
    letter U+00E9 (e with acute accent) matches the name that starts with
    U+00C9, its upper case; the division sign U+00F7 does not match the
    multiplication sign U+00D7, and the sharp s matches itself only. *)
Example accented_letters_fold :
  option_map (fun r => Pattern.test r (String (ascii_of_nat 201) "clair"))
             (Pattern.RegExp (String "^" (String (ascii_of_nat 233) "")))
  = Some true
  /\ Pattern.canonicalize (ascii_of_nat 247) = ascii_of_nat 247
  /\ Pattern.canonicalize (ascii_of_nat 223) = ascii_of_nat 223
  /\ Pattern.canonicalize (ascii_of_nat 255) = ascii_of_nat 255.
Proof. repeat split. Qed.

(** Text outside ASCII is not read as a page number, whatever it holds. *)
Example page_outside_ascii :
  JS.ToNumber (JS.VString (String (ascii_of_nat 160) "2")) = None
  /\ JS.parseInt (JS.VString (String (ascii_of_nat 160) "2")) = None
  /\ JS.isNaN (JS.VString (String (ascii_of_nat 160) "2")) = None.
Proof. repeat split. Qed.

(** The empty query matches every hero. *)
Lemma by_name_empty_query (u : bool) (h : Hero.t) :
  exists f, by_name_filter (Some "") = Some f /\ Hero.matches u f h = true.
Proof.
  eexists; split; [reflexivity|].
  unfold Hero.matches. cbn. unfold Pattern.test.
  destruct (list_ascii_of_string (Hero.name h)); reflexivity.
Qed.

(* ================================================================== *)
(** ** POST /search/heroes/by-name *)
(* ================================================================== *)

(** C6.  The claim asks that a hero match exactly when its name starts with
    the query, and that a missing query match every hero.  With no [query]
    in the body the handler builds the pattern [^undefined], which rejects
    the hero named Flash: the search over a collection holding only Flash
    returns nothing. *)
Theorem by_name_missing_query_rejects_flash (u : bool) :
  by_name_filter None
    = option_map (fun r => Fields [("name", Regex r)])
                 (Pattern.RegExp "^undefined")
  /\ option_map (fun f => Hero.matches u f Sample.flash) (by_name_filter None)
     = Some false
  /\ search_by_name u Sample.only_flash (Some "1") None
     = Some {| data := [];
               count := 0;
               pagination := [("page", JS.Num 1); ("pageCount", JS.Num 0)] |}.
Proof. repeat split. Qed.

(** C9.  The query is not escaped: [.*] holds pattern syntax, no name starts
    with those two characters, and yet both searches built from it return
    Flash. *)
Theorem unescaped_query_is_pattern_syntax :
  exists (q : string) (h : Hero.t),
    existsb Pattern.is_syntax_character (list_ascii_of_string q) = true
    /\ Pattern.starts_with_ci (list_ascii_of_string q)
                              (list_ascii_of_string (Hero.name h)) = false
    /\ (forall u,
         option_map (fun f => Hero.matches u f h) (by_name_filter (Some q))
         = Some true)
    /\ (forall u,
         option_map data (search_by_name u Sample.only_flash (Some "1") (Some q))
         = Some [h])
    /\ (forall u,
         option_map data
           (search u Sample.only_flash (Sample.full_query (Some "1") (Some q) "Male" 0))
         = Some [h]).
Proof.
  exists ".*", Sample.flash. repeat split.
Qed.

(* ================================================================== *)
(** ** GET /search *)
(* ================================================================== *)

Lemma undefined_pattern :
  Pattern.RegExp (JS.concat "^" None)
  = Some (Pattern.literal (list_ascii_of_string "undefined")).
Proof. reflexivity. Qed.

Lemma holds_name_regex (u : bool) (h : Hero.t) (r : Pattern.regex) :
  holds u (Hero.get h) ("name", Regex r) = Pattern.test r (Hero.name h).
Proof. reflexivity. Qed.

(** X25.  With [name] left out of the query string, whatever the other
    parameters and whatever the store, a hero is returned only if its name
    starts with the word [undefined]. *)
Lemma search_omitted_name (u : bool) (db : Store) (q : SearchQuery)
    (r : Response Hero.t) (h : Hero.t) :
  q_name q = None ->
  search u db q = Some r ->
  In h (data r) ->
  Pattern.starts_with_ci (list_ascii_of_string "undefined")
                         (list_ascii_of_string (Hero.name h)) = true.
Proof.
  intros Hname Hr Hin. unfold search in Hr.
  apply bind_some in Hr as (call & Hcall & Hr).
  apply bind_some in Hr as (results & Hrun & Hr).
  apply bind_some in Hr as (counted & _ & Hr).
  apply bind_some in Hr as (p & _ & Hr).
  injection Hr as <-. cbn [data] in Hin.
  destruct (run_heroes_In _ _ _ _ _ Hrun Hin) as [_ Hm].
  unfold search_call in Hcall.
  apply bind_some in Hcall as (f & Hf & Hcall).
  apply bind_some in Hcall as (s & _ & Hcall).
  injection Hcall as <-. cbn [conditions] in Hm.
  unfold search_filter in Hf. rewrite Hname, undefined_pattern in Hf.
  cbn [bind] in Hf. injection Hf as <-.
  unfold Hero.matches in Hm. cbn [satisfies forallb] in Hm.
  apply andb_true_iff in Hm as [Hm _].
  rewrite holds_name_regex in Hm. unfold Pattern.test in Hm.
  rewrite <- PatternFacts.matches_prefix_literal. exact Hm.
Qed.

Lemma holds_undefined_bound (u : bool) (get : string -> option field)
    (path : string) :
  holds u get (path, Gte None) = u.
Proof. unfold holds; cbn. now destruct (get path) as [[]|]. Qed.

Lemma holds_undefined_value (u : bool) (get : string -> option field)
    (path : string) :
  holds u get (path, Equals None) = u.
Proof. unfold holds; cbn. now destruct (get path) as [[]|]. Qed.

(** In a store that admits a record on a clause with an undefined operand,
    such clauses can be left out of a filter. *)
Lemma undefined_clauses_admitted (get : string -> option field) (path : string)
    (cs : list (string * condition)) :
  (forall c, In c cs -> fst c = path ->
             snd c = Equals None \/ snd c = Gte None) ->
  satisfies true get (without_clause path (Fields cs))
  = satisfies true get (Fields cs).
Proof.
  cbn. induction cs as [|[p c] cs IH]; intros Hcs; [reflexivity|].
  cbn [List.filter forallb fst].
  assert (IH' := IH (fun c Hc => Hcs c (or_intror Hc))).
  destruct (String.eqb_spec p path) as [->|Hp]; cbn [negb forallb].
  - destruct (Hcs (path, c) (or_introl eq_refl) eq_refl) as [Hc|Hc];
      cbn in Hc; subst c.
    + now rewrite holds_undefined_value.
    + now rewrite holds_undefined_bound.
  - now rewrite IH'.
Qed.

(** In a store that compares with the undefined operand, a combined search
    that leaves out gender or any threshold admits no hero at all. *)
Lemma search_unset_rejects_all (q : SearchQuery) (f : filter) (h : Hero.t) :
  search_filter q = Some f ->
  q_gender q = None \/ q_intelligence q = None \/ q_strength q = None \/
  q_speed q = None \/ q_durability q = None \/ q_power q = None \/
  q_combat q = None ->
  Hero.matches false f h = false.
Proof.
  unfold search_filter. intros Hf Hunset.
  apply bind_some in Hf as (r & _ & Hf). injection Hf as <-.
  unfold Hero.matches. cbn [satisfies forallb].
  destruct Hunset as [H|[H|[H|[H|[H|[H|H]]]]]]; rewrite H;
    rewrite ?holds_undefined_value, ?holds_undefined_bound;
    cbn [andb]; rewrite ?andb_false_r; reflexivity.
Qed.

(** In a store that admits records on undefined operands, leaving out the
    speed threshold is the same as having no clause on speed. *)
Lemma search_unset_speed_admitted (q : SearchQuery) (f : filter) (h : Hero.t) :
  search_filter q = Some f ->
  q_speed q = None ->
  Hero.matches true f h = Hero.matches true (without_clause "powerstats.speed" f) h.
Proof.
  unfold search_filter. intros Hf Hspeed.
  apply bind_some in Hf as (r & _ & Hf). injection Hf as <-.
  unfold Hero.matches. symmetry. apply undefined_clauses_admitted.
  rewrite Hspeed. cbn [In].
  intros c [<-|[<-|[<-|[<-|[<-|[<-|[<-|[<-|[]]]]]]]]]; cbn [fst snd];
    try discriminate; auto.
Qed.

(** C1.  The claim asks that a parameter left out of the query string place
    no constraint on the result.  The handler builds its pattern from
    [req.query.name] whether it is set or not: for the query that sets
    gender and every threshold and leaves out [name], over a collection
    holding only Flash, the search returns nothing, while the same filter
    with the clause on [name] absent returns Flash. *)
Theorem search_omitted_name_rejects_flash (u : bool) :
  let q := Sample.full_query (Some "1") None "Male" 0 in
  search u Sample.only_flash q
  = Some {| data := [];
            count := 0;
            pagination := [("page", JS.Num 1); ("pageCount", JS.Num 0)] |}
  /\ option_map
       (fun f => Hero.find u (heroes Sample.only_flash) (without_clause "name" f))
       (search_filter q)
     = Some [Sample.flash].
Proof. split; reflexivity. Qed.

(** C3.  The claim asks that [count] be the number of records matching the
    whole filter.  The combined search counts with the clause on [name]
    alone: for the names starting with Fl, gender Male, over Flora (Female)
    and Flash (Male), one record matches the filter and is returned, and
    [count] is 2. *)
Theorem search_count_ignores_all_but_name (u : bool) :
  let q := Sample.full_query (Some "1") (Some "Fl") "Male" 0 in
  search u Sample.flora_and_flash q
  = Some {| data := [Sample.flash];
            count := 2;
            pagination := [("page", JS.Num 1); ("pageCount", JS.Num 1)] |}
  /\ option_map (Hero.countDocuments u (heroes Sample.flora_and_flash))
                (search_filter q)
     = Some 1.
Proof. split; reflexivity. Qed.

(* ================================================================== *)
(** ** The page parameter *)
(* ================================================================== *)

(** [GET /heroes] replaces a page that is absent or not a number by 1: the
    find call skips nothing. *)
Lemma list_heroes_default_page (q_page : option string) :
  JS.isNaN (JS.of_query q_page) = Some true ->
  list_heroes_page q_page = Some (JS.VNumber (JS.Num 1))
  /\ list_heroes_call q_page
     = Some {| conditions := Fields [];
               skip_arg := JS.Num 0;
               limit_arg := DEFAULT_HEROES_PER_PAGE |}.
Proof.
  intros Hnan. unfold list_heroes_call, list_heroes_page.
  rewrite Hnan. split; reflexivity.
Qed.

(** The guard of [GET /heroes] lets the empty text through, which reads as
    the number 0: the handler then asks the store to skip -10 records. *)
Example list_heroes_empty_page :
  option_map skip_arg (list_heroes_call (Some "")) = Some (JS.Num (-10)).
Proof. reflexivity. Qed.

(** C2.  The claim asks that every paginated endpoint read an absent page
    or one that is not a number as page 1, so that nothing is skipped.
    [GET /heroes] does; the four other handlers compute
    [(undefined - 1) * perPage], and hand NaN to [skip]. *)
Theorem absent_page_skip :
  option_map skip_arg (list_heroes_call None) = Some (JS.Num 0)
  /\ option_map skip_arg (list_heroes_call (Some "abc")) = Some (JS.Num 0)
  /\ option_map skip_arg (search_by_name_call None (Some "fla")) = Some JS.NaN
  /\ option_map skip_arg (search_by_name_call (Some "abc") (Some "fla"))
     = Some JS.NaN
  /\ (forall body,
       option_map skip_arg (search_by_min_stats_call None body) = Some JS.NaN)
  /\ option_map skip_arg
       (search_call (Sample.full_query None (Some "fla") "Male" 0))
     = Some JS.NaN
  /\ (forall id, option_map skip_arg (list_comments_call id None) = Some JS.NaN).
Proof. repeat split. Qed.

(* ================================================================== *)
(** ** POST /search/heroes/by-min-stats *)
(* ================================================================== *)

Lemma substring_all (s : string) : substring 0 (String.length s) s = s.
Proof. induction s as [|c s IH]; cbn; [reflexivity|now rewrite IH]. Qed.

(** The path built for a key leads to that key of the hero's powerstats. *)
Lemma get_powerstats (h : Hero.t) (key : string) :
  Hero.get h (String.append "powerstats." key)
  = option_map Number (stat (Hero.powerstats h) key).
Proof.
  unfold Hero.get. cbn.
  destruct key as [|c key]; [reflexivity|].
  cbn. now rewrite substring_all.
Qed.

Lemma holds_min_stat (u : bool) (h : Hero.t) (key : string) (least : Z) :
  holds u (Hero.get h) (String.append "powerstats." key, Gte (Some least))
  = match stat (Hero.powerstats h) key with
    | Some v => least <=? v
    | None => false
    end.
Proof.
  unfold holds. cbn [fst snd]. rewrite get_powerstats.
  now destruct (stat (Hero.powerstats h) key).
Qed.

Lemma matches_min_stats (u : bool) (body : StatsBody) (h : Hero.t) :
  Hero.matches u (by_min_stats_filter body) h
  = forallb (fun kv => match stat (Hero.powerstats h) (fst kv) with
                       | Some v => snd kv <=? v
                       | None => false
                       end) body.
Proof.
  unfold Hero.matches, by_min_stats_filter. cbn [satisfies].
  induction body as [|[key least] body IH]; [reflexivity|].
  cbn [map forallb satisfies fst snd].
  now rewrite IH, holds_min_stat, andb_true_r.
Qed.

(** The first page of a search: the first ten of the matching heroes sorted
    by name, and their number. *)
Lemma first_page_of (u : bool) (db : Store) (f : filter) :
  run_heroes u db {| conditions := f; skip_arg := JS.Num 0;
                     limit_arg := DEFAULT_HEROES_PER_PAGE |}
  = Some (firstn 10 (sort_by Hero.name_asc (Hero.find u (heroes db) f))).
Proof. reflexivity. Qed.

(** C4.  With an empty body the filter of the min-stats search admits every
    hero: page 1 is the first ten heroes of the whole collection sorted by
    name ([sort_by_perm], [sort_by_sorted]), and [count] is the size of the
    collection, on page 1 and on every other page the handler answers. *)
Theorem min_stats_empty_body (u : bool) (db : Store) :
  (forall h, Hero.matches u (by_min_stats_filter []) h = true)
  /\ search_by_min_stats u db (Some "1") []
     = Some {| data := firstn 10 (sort_by Hero.name_asc (heroes db));
               count := Z.of_nat (List.length (heroes db));
               pagination :=
                 [("page", JS.Num 1);
                  ("pageCount",
                   page_count (Z.of_nat (List.length (heroes db))) 10)] |}
  /\ (forall page r,
        search_by_min_stats u db page [] = Some r ->
        count r = Z.of_nat (List.length (heroes db))).
Proof.
  assert (Hall : Hero.find u (heroes db) (by_min_stats_filter []) = heroes db).
  { unfold Hero.find. now rewrite filter_true by reflexivity. }
  split; [reflexivity|split].
  - unfold search_by_min_stats, search_by_min_stats_call.
    cbn [bind JS.of_query].
    change (skip_of (JS.VString "1") DEFAULT_HEROES_PER_PAGE)
      with (Some (JS.Num 0)).
    cbn [bind conditions]. rewrite first_page_of. cbn [bind].
    unfold Hero.countDocuments. rewrite Hall. reflexivity.
  - intros page r Hr. unfold search_by_min_stats in Hr.
    apply bind_some in Hr as (call & Hcall & Hr).
    apply bind_some in Hr as (results & _ & Hr).
    apply bind_some in Hr as (p & _ & Hr).
    injection Hr as <-. cbn [count].
    unfold search_by_min_stats_call in Hcall.
    apply bind_some in Hcall as (s & _ & Hcall). injection Hcall as <-.
    cbn [conditions]. unfold Hero.countDocuments. now rewrite Hall.
Qed.

Lemma min_stats_empty_body_witness :
  option_map count
    (search_by_min_stats true Sample.twenty_five (Some "3") [])
  = Some 25.
Proof.
  exact (f_equal Some
           (proj2 (proj2 (min_stats_empty_body true Sample.twenty_five))
                  (Some "3") _ eq_refl)).
Defined.

(** C5.  A hero passes the filter of the min-stats search exactly when each
    key of the body names one of its powerstats and that stat is at least
    the threshold given; keys not in the body play no part.  For the body
    [{speed: 100}] these are the heroes of speed 100 or more, whatever their
    other stats: page 1 holds the first ten of them by name and [count] is
    their number. *)
Theorem min_stats_lower_bounds (u : bool) (body : StatsBody) (h : Hero.t) :
  (Hero.matches u (by_min_stats_filter body) h = true <->
   forall key least, In (key, least) body ->
     exists v, stat (Hero.powerstats h) key = Some v /\ least <= v)
  /\ Hero.matches u (by_min_stats_filter [("speed", 100)]) h
     = (100 <=? speed (Hero.powerstats h))
  /\ forall db,
       let fast := List.filter (fun x => 100 <=? speed (Hero.powerstats x))
                               (heroes db) in
       search_by_min_stats u db (Some "1") [("speed", 100)]
       = Some {| data := firstn 10 (sort_by Hero.name_asc fast);
                 count := Z.of_nat (List.length fast);
                 pagination :=
                   [("page", JS.Num 1);
                    ("pageCount", page_count (Z.of_nat (List.length fast)) 10)] |}.
Proof.
  assert (Hspeed : forall x,
            Hero.matches u (by_min_stats_filter [("speed", 100)]) x
            = (100 <=? speed (Hero.powerstats x))).
  { intros x. rewrite matches_min_stats. cbn. apply andb_true_r. }
  split; [|split].
  - rewrite matches_min_stats, forallb_forall. split.
    + intros Hall key least Hin. specialize (Hall _ Hin). cbn in Hall.
      destruct (stat (Hero.powerstats h) key) as [v|]; [|discriminate].
      exists v. split; [reflexivity|]. now apply Z.leb_le.
    + intros Hall [key least] Hin. cbn.
      destruct (Hall _ _ Hin) as (v & -> & Hv). now apply Z.leb_le.
  - apply Hspeed.
  - intros db fast.
    unfold search_by_min_stats, search_by_min_stats_call.
    cbn [bind JS.of_query].
    change (skip_of (JS.VString "1") DEFAULT_HEROES_PER_PAGE)
      with (Some (JS.Num 0)).
    cbn [bind conditions]. rewrite first_page_of. cbn [bind].
    unfold Hero.countDocuments, Hero.find.
    rewrite (filter_ext _ _ Hspeed). reflexivity.
Qed.

(* ================================================================== *)
(** ** Decimal text reads back as the number it spells *)
(* ================================================================== *)

Module DecimalText.
Import JS.

Ltac digit_cases c H :=
  unfold digit, is_decimal_digit in H;
  cbn [existsb list_ascii_of_string] in H;
  repeat (apply orb_true_iff in H as [H|H];
          [apply Ascii.eqb_eq in H; subst c|]);
  [..|discriminate H].

Lemma read_digits_uint (d : Decimal.uint) (acc : Z) :
  read_digits 10 acc
    (list_ascii_of_string (DecimalString.NilEmpty.string_of_uint d))
  = (uint_value acc d, Decimal.nb_digits d, []).
Proof.
  revert acc.
  induction d as [|d IH|d IH|d IH|d IH|d IH|d IH|d IH|d IH|d IH|d IH];
    intros acc; [reflexivity|..];
    cbn [DecimalString.NilEmpty.string_of_uint list_ascii_of_string
         read_digits uint_value Decimal.nb_digits];
    match goal with
    | |- context [digit_value 10 ?c] =>
        let v := eval vm_compute in (digit_value 10 c) in
        change (digit_value 10 c) with v
    end;
    cbv iota beta; rewrite IH; reflexivity.
Qed.

Lemma of_uint_acc_value (d : Decimal.uint) (acc : positive) :
  Z.pos (Pos.of_uint_acc d acc) = uint_value (Z.pos acc) d.
Proof.
  revert acc.
  induction d as [|d IH|d IH|d IH|d IH|d IH|d IH|d IH|d IH|d IH|d IH];
    intros acc; cbn [Pos.of_uint_acc uint_value]; [reflexivity|..];
    rewrite IH; f_equal; rewrite ?Pos2Z.inj_add, ?Pos2Z.inj_mul; lia.
Qed.

Lemma of_uint_value (d : Decimal.uint) :
  Z.of_N (Pos.of_uint d) = uint_value 0 d.
Proof.
  induction d as [|d IH|d IH|d IH|d IH|d IH|d IH|d IH|d IH|d IH|d IH];
    cbn [Pos.of_uint uint_value]; [reflexivity|exact IH|..];
    cbn [Z.of_N]; rewrite of_uint_acc_value; reflexivity.
Qed.

Lemma to_uint_value (n : N) : uint_value 0 (N.to_uint n) = Z.of_N n.
Proof.
  rewrite <- of_uint_value. change (Pos.of_uint ?d) with (N.of_uint d).
  now rewrite DecimalN.Unsigned.of_to.
Qed.

(** What the readers test of a character, on a digit. *)
Lemma digit_tests (c : ascii) :
  digit c ->
  is_white_space c = false
  /\ is_char c "-" "-" = false /\ is_char c "+" "+" = false
  /\ is_char c "x" "X" = false /\ is_char c "o" "O" = false
  /\ is_char c "b" "B" = false /\ Ascii.eqb c "I" = false.
Proof. intros H. digit_cases c H; repeat split. Qed.

Lemma digits_of_uint (d : Decimal.uint) :
  Forall digit (list_ascii_of_string (DecimalString.NilEmpty.string_of_uint d)).
Proof.
  induction d; cbn; constructor; (reflexivity || assumption).
Qed.

Lemma drop_white_space_digits (l : list ascii) :
  Forall digit l -> drop_white_space l = l.
Proof.
  destruct 1 as [|c l Hc _]; [reflexivity|]. cbn.
  now destruct (digit_tests c Hc) as (-> & _).
Qed.

Lemma trim_digits (l : list ascii) : Forall digit l -> trim l = l.
Proof.
  intros Hl. unfold trim. rewrite (drop_white_space_digits l Hl).
  rewrite drop_white_space_digits by now apply Forall_rev.
  apply rev_involutive.
Qed.

(** [Number] and [parseInt] agree on a run of decimal digits. *)
Lemma digits_read (s : string) (v : Z) (n : nat) :
  Forall digit (list_ascii_of_string s) ->
  read_digits 10 0 (list_ascii_of_string s) = (v, S n, []) ->
  StringToNumber s = exact v /\ parseInt_string s = exact v.
Proof.
  intros Hs Hread. unfold StringToNumber, parseInt_string.
  rewrite (trim_digits _ Hs), (drop_white_space_digits _ Hs).
  destruct (list_ascii_of_string s) as [|z rest]; [discriminate Hread|].
  inversion Hs as [|? ? Hz Hrest]; subst.
  destruct (digit_tests z Hz) as (_ & Hminus & Hplus & _ & _ & _ & HI).
  assert (Hsign : read_sign (z :: rest) = (1, z :: rest)).
  { unfold read_sign. now rewrite Hminus, Hplus. }
  assert (Hinf : String.eqb (string_of_list_ascii (z :: rest)) "Infinity"
                 = false).
  { cbn. now rewrite HI. }
  cbv zeta. rewrite Hsign, Hinf.
  destruct rest as [|x rest].
  - cbv beta iota. rewrite Hread, Z.mul_1_l. split; reflexivity.
  - inversion Hrest as [|? ? Hx _]; subst.
    destruct (digit_tests x Hx) as (_ & _ & _ & -> & -> & -> & _).
    rewrite andb_false_r. cbv beta iota. rewrite Hread, Z.mul_1_l.
    now destruct (is_char z "0" "0").
Qed.

Lemma digits_ascii (s : string) :
  Forall digit (list_ascii_of_string s) -> is_ascii_text s = true.
Proof.
  unfold is_ascii_text. intros Hs. apply forallb_forall. intros c Hc.
  rewrite Forall_forall in Hs. specialize (Hs c Hc).
  digit_cases c Hs; reflexivity.
Qed.

Lemma decimal_nonempty (n : N) :
  DecimalString.NilZero.string_of_uint (N.to_uint n)
  = DecimalString.NilEmpty.string_of_uint (N.to_uint n)
  /\ exists k, Decimal.nb_digits (N.to_uint n) = S k.
Proof.
  destruct n as [|p]; [split; [reflexivity|now exists 0%nat]|].
  cbn [N.to_uint]. pose proof (DecimalPos.Unsigned.to_uint_nonnil p) as Hnil.
  destruct (Pos.to_uint p); [contradiction|..];
    (split; [reflexivity|eexists; reflexivity]).
Qed.

(** A page number written in decimal digits is read as that number, by
    [Number] and by [parseInt] alike. *)
Lemma decimal_reads_back (p : Z) :
  0 <= p <= modelled_bound ->
  ToNumber (VString (decimal p)) = Some (Num p)
  /\ parseInt (VString (decimal p)) = Some (Num p).
Proof.
  intros Hp. unfold decimal. cbn [ToNumber parseInt].
  destruct (decimal_nonempty (Z.to_N p)) as (-> & k & Hk).
  assert (Hexact : exact p = Some (Num p)).
  { unfold exact. replace (Z.abs p <=? modelled_bound) with true;
      [reflexivity|]. symmetry. apply Z.leb_le. lia. }
  rewrite <- Hexact.
  rewrite (digits_ascii _ (digits_of_uint (N.to_uint (Z.to_N p)))).
  apply (digits_read _ p k); [apply digits_of_uint|].
  rewrite read_digits_uint, to_uint_value, Hk. f_equal. f_equal. lia.
Qed.

End DecimalText.

(* ================================================================== *)
(** ** GET /heroes *)
(* ================================================================== *)

Lemma count_all (u : bool) (db : Store) :
  Hero.countDocuments u (heroes db) (Fields [])
  = Z.of_nat (List.length (heroes db)).
Proof.
  unfold Hero.countDocuments, Hero.find.
  now rewrite filter_true by reflexivity.
Qed.

Lemma find_all (u : bool) (db : Store) :
  Hero.find u (heroes db) (Fields []) = heroes db.
Proof. unfold Hero.find. now rewrite filter_true by reflexivity. Qed.

(** The handler on a page parameter that reads as the number [p >= 1]. *)
Lemma list_heroes_numeric_page (u : bool) (db : Store) (s : string) (p : Z) :
  JS.ToNumber (JS.VString s) = Some (JS.Num p) ->
  JS.parseInt (JS.VString s) = Some (JS.Num p) ->
  1 <= p ->
  list_heroes_call (Some s)
  = Some {| conditions := Fields [];
            skip_arg := JS.Num ((p - 1) * 10);
            limit_arg := 10 |}
  /\ list_heroes u db (Some s)
     = Some {| data := firstn 10 (skipn (Z.to_nat ((p - 1) * 10))
                                     (sort_by Hero.name_asc (heroes db)));
               count := Z.of_nat (List.length (heroes db));
               pagination :=
                 [("previousPage", JS.Num (if p =? 1 then 1 else p - 1));
                  ("nextPage", JS.Num (p + 1));
                  ("page", JS.Num p);
                  ("pageCount",
                   page_count (Z.of_nat (List.length (heroes db))) 10)] |}.
Proof.
  intros Hnum Hint Hp.
  assert (Hpage : list_heroes_page (Some s) = Some (JS.VString s)).
  { unfold list_heroes_page, JS.isNaN. cbn [JS.of_query]. now rewrite Hnum. }
  assert (Hcall : list_heroes_call (Some s)
                  = Some {| conditions := Fields [];
                            skip_arg := JS.Num ((p - 1) * 10);
                            limit_arg := 10 |}).
  { unfold list_heroes_call, skip_of. rewrite Hpage. cbn [bind].
    now rewrite Hnum. }
  split; [exact Hcall|].
  unfold list_heroes, JS.loose_eq. rewrite Hpage. cbn [bind].
  rewrite Hnum, Hint. cbn [bind]. rewrite Hcall. cbn [bind].
  unfold run_heroes, skip. cbn [skip_arg limit_arg conditions].
  replace (0 <=? (p - 1) * 10) with true by (symmetry; apply Z.leb_le; lia).
  cbn [bind]. rewrite count_all, find_all.
  cbn [JS.sub JS.add JS.number_eqb].
  now destruct (p =? 1).
Qed.

(** Where [Number] and [parseInt] read the page text as the same number
    [p >= 1], and so for [p] written in decimal digits, [previousPage] is
    [p - 1], except that it is 1 when [p] is 1, and [nextPage] is [p + 1]
    whatever the number of pages.  For page 2 of 25 heroes the handler skips 10, limits to 10, and reports 3 pages,
    previous page 1 and next page 3. *)
Theorem list_heroes_neighbours (u : bool) :
  (forall (db : Store) (s : string) (p : Z),
     JS.ToNumber (JS.VString s) = Some (JS.Num p) ->
     JS.parseInt (JS.VString s) = Some (JS.Num p) ->
     1 <= p ->
     option_map pagination (list_heroes u db (Some s))
     = Some [("previousPage", JS.Num (if p =? 1 then 1 else p - 1));
             ("nextPage", JS.Num (p + 1));
             ("page", JS.Num p);
             ("pageCount",
              page_count (Z.of_nat (List.length (heroes db))) 10)])
  /\ (forall (db : Store) (p : Z),
        1 <= p <= JS.modelled_bound ->
        option_map pagination (list_heroes u db (Some (JS.decimal p)))
        = Some [("previousPage", JS.Num (if p =? 1 then 1 else p - 1));
                ("nextPage", JS.Num (p + 1));
                ("page", JS.Num p);
                ("pageCount",
                 page_count (Z.of_nat (List.length (heroes db))) 10)])
  /\ (forall db : Store,
        List.length (heroes db) = 25%nat ->
        list_heroes_call (Some "2")
        = Some {| conditions := Fields [];
                  skip_arg := JS.Num 10;
                  limit_arg := 10 |}
        /\ list_heroes u db (Some "2")
           = Some {| data := firstn 10 (skipn 10 (sort_by Hero.name_asc
                                                    (heroes db)));
                     count := 25;
                     pagination := [("previousPage", JS.Num 1);
                                    ("nextPage", JS.Num 3);
                                    ("page", JS.Num 2);
                                    ("pageCount", JS.Num 3)] |}).
Proof.
  split; [|split].
  - intros db s p Hnum Hint Hp.
    destruct (list_heroes_numeric_page u db s p Hnum Hint Hp) as [_ ->].
    reflexivity.
  - intros db p Hp.
    destruct (DecimalText.decimal_reads_back p ltac:(lia)) as [Hnum Hint].
    destruct (list_heroes_numeric_page u db _ p Hnum Hint ltac:(lia))
      as [_ ->].
    reflexivity.
  - intros db Hlen.
    destruct (list_heroes_numeric_page u db "2" 2 eq_refl eq_refl ltac:(lia))
      as [Hcall Hlist].
    split; [exact Hcall|]. rewrite Hlist, Hlen. reflexivity.
Qed.

Lemma list_heroes_neighbours_witness :
  option_map pagination (list_heroes true Sample.flora_and_flash (Some "1"))
  = Some [("previousPage", JS.Num 1); ("nextPage", JS.Num 2);
          ("page", JS.Num 1); ("pageCount", JS.Num 1)]
  /\ option_map pagination
       (list_heroes true Sample.twenty_five (Some (JS.decimal 3)))
     = Some [("previousPage", JS.Num 2); ("nextPage", JS.Num 4);
             ("page", JS.Num 3); ("pageCount", JS.Num 3)]
  /\ option_map (fun r => List.length (data r))
       (list_heroes true Sample.twenty_five (Some "2"))
     = Some 10%nat.
Proof.
  destruct (list_heroes_neighbours true) as (Htext & Hdecimal & Hscenario).
  refine (conj _ (conj _ _)).
  - exact (Htext Sample.flora_and_flash "1" 1 eq_refl eq_refl (Z.le_refl 1)).
  - refine (Hdecimal Sample.twenty_five 3 _).
    unfold JS.modelled_bound. lia.
  - destruct (Hscenario Sample.twenty_five eq_refl) as [_ ->]. reflexivity.
Defined.

(** C7.  The claim asks, for a numeric page [p >= 1], that [previousPage] be
    [p - 1] (1 when [p] is 1) and [nextPage] be [p + 1].  The handler guards
    with [isNaN(page)] and takes the window and [previousPage] from
    [Number(page)], but [nextPage] and [page] from [parseInt(page)].  For
    the page text [0b10], which is no NaN and which [Number] reads as 2,
    over 25 heroes, it skips 10, limits to 10 and reports 3 pages and
    previous page 1, as for page 2; yet it reports next page 1 and page 0,
    where the claim has next page 3. *)
Theorem list_heroes_next_page_by_parseInt (u : bool) :
  JS.isNaN (JS.VString "0b10") = Some false
  /\ JS.ToNumber (JS.VString "0b10") = Some (JS.Num 2)
  /\ JS.parseInt (JS.VString "0b10") = Some (JS.Num 0)
  /\ list_heroes_call (Some "0b10")
     = Some {| conditions := Fields [];
               skip_arg := JS.Num 10;
               limit_arg := 10 |}
  /\ list_heroes u Sample.twenty_five (Some "0b10")
     = Some {| data := firstn 10 (skipn 10 (sort_by Hero.name_asc
                                              (heroes Sample.twenty_five)));
               count := 25;
               pagination := [("previousPage", JS.Num 1);
                              ("nextPage", JS.Num 1);
                              ("page", JS.Num 0);
                              ("pageCount", JS.Num 3)] |}.
Proof. repeat split. Qed.

(* ================================================================== *)
(** ** The pagination object *)
(* ================================================================== *)

(** Runs a handler's steps backwards from the response it sent. *)
Ltac sent H :=
  repeat (apply bind_some in H as (? & _ & H));
  injection H as <-; reflexivity.

(** C10.  Whenever a handler responds, the pagination object of the by-name
    search, the min-stats search, the combined search and the comment list
    has the fields [page] and [pageCount] and no other; that of the hero
    list has [previousPage] and [nextPage] as well. *)
Theorem pagination_fields (u : bool) (db : Store) :
  (forall page r,
     list_heroes u db page = Some r ->
     fields_of r = ["previousPage"; "nextPage"; "page"; "pageCount"])
  /\ (forall page query r,
        search_by_name u db page query = Some r ->
        fields_of r = ["page"; "pageCount"])
  /\ (forall page body r,
        search_by_min_stats u db page body = Some r ->
        fields_of r = ["page"; "pageCount"])
  /\ (forall q r,
        search u db q = Some r -> fields_of r = ["page"; "pageCount"])
  /\ (forall id page r,
        list_comments db id page = Some r ->
        fields_of r = ["page"; "pageCount"]).
Proof.
  repeat split.
  - intros page r H. unfold list_heroes in H. sent H.
  - intros page query r H. unfold search_by_name in H. sent H.
  - intros page body r H. unfold search_by_min_stats in H. sent H.
  - intros q r H. unfold search in H. sent H.
  - intros id page r H. unfold list_comments in H. sent H.
Qed.

Lemma pagination_fields_witness :
  option_map fields_of (list_heroes true Sample.only_flash (Some "1"))
  = Some ["previousPage"; "nextPage"; "page"; "pageCount"]
  /\ option_map fields_of
       (search_by_name true Sample.only_flash (Some "1") (Some "fla"))
     = Some ["page"; "pageCount"]
  /\ option_map fields_of
       (search_by_min_stats true Sample.only_flash (Some "1") [("speed", 10)])
     = Some ["page"; "pageCount"]
  /\ option_map fields_of
       (search true Sample.only_flash
          (Sample.full_query (Some "1") (Some "fla") "Male" 0))
     = Some ["page"; "pageCount"]
  /\ option_map fields_of (list_comments Sample.only_flash "5f1a" (Some "1"))
     = Some ["page"; "pageCount"].
Proof.
  destruct (pagination_fields true Sample.only_flash)
    as (Hlist & Hname & Hstats & Hsearch & Hcomments).
  refine (conj _ (conj _ (conj _ (conj _ _)))).
  - exact (f_equal Some (Hlist (Some "1") _ eq_refl)).
  - exact (f_equal Some (Hname (Some "1") (Some "fla") _ eq_refl)).
  - exact (f_equal Some (Hstats (Some "1") [("speed", 10)] _ eq_refl)).
  - exact (f_equal Some
             (Hsearch (Sample.full_query (Some "1") (Some "fla") "Male" 0)
                      _ eq_refl)).
  - exact (f_equal Some (Hcomments "5f1a" (Some "1") _ eq_refl)).
Defined.

(* ================================================================== *)
(** ** Comments *)
(* ================================================================== *)

Lemma find_comments_app (l1 l2 : list Comment.t) (id : string) :
  Comment.find (l1 ++ l2) id = Comment.find l1 id ++ Comment.find l2 id.
Proof. apply filter_app. Qed.

Lemma find_comments_own (c : Comment.t) (id : string) :
  Comment.hero c = id -> Comment.find [c] id = [c].
Proof. intros <-. unfold Comment.find. cbn. now rewrite String.eqb_refl. Qed.

Lemma find_comments_hero (l : list Comment.t) (id : string) (c : Comment.t) :
  In c (Comment.find l id) -> In c l /\ Comment.hero c = id.
Proof.
  unfold Comment.find. intros Hc. apply filter_In in Hc as [Hin Heq].
  split; [exact Hin|]. now apply String.eqb_eq.
Qed.

(** Every comment listed for a hero that exists carries that hero's record. *)
Lemma populated_hero (heroes : list Hero.t) (l : list Comment.t) (id : string)
    (h : Hero.t) :
  Hero.findById heroes id = Some h ->
  Forall (fun e => Comment.p_hero e = Some h)
         (map (Comment.populate heroes) (Comment.find l id)).
Proof.
  intros Hh. apply Forall_forall. intros e He.
  apply in_map_iff in He as (c & <- & Hc).
  apply find_comments_hero in Hc as [_ Hc].
  unfold Comment.populate. cbn. now rewrite Hc.
Qed.

Lemma populate_saved (heroes : list Hero.t) (n : nat) (id commentText : string)
    (now : Z) :
  Comment.populate heroes {| Comment._id := n; Comment.hero := id;
                             Comment.text := commentText;
                             Comment.createdAt := now |}
  = {| Comment.p_id := n; Comment.p_hero := Hero.findById heroes id;
       Comment.p_text := commentText; Comment.p_createdAt := now |}.
Proof. reflexivity. Qed.

(** Saving appends the comment and leaves the heroes as they are. *)
Lemma create_comment_store (db : Store) (now : Z) (id commentText : string) :
  fst (create_comment db now id commentText)
  = {| heroes := heroes db;
       comments := comments db ++ [{| Comment._id := next_id db;
                                      Comment.hero := id;
                                      Comment.text := commentText;
                                      Comment.createdAt := now |}];
       next_id := S (next_id db) |}.
Proof. reflexivity. Qed.

Lemma find_append {A : Type} (f : A -> bool) (l1 l2 : list A) :
  List.find f (l1 ++ l2)
  = match List.find f l1 with
    | Some x => Some x
    | None => List.find f l2
    end.
Proof.
  induction l1 as [|x l1 IH]; cbn; [reflexivity|].
  now destruct (f x).
Qed.

(** When the identifiers in use lie below the next one, the handler answers
    with the comment it saved, its hero reference resolved. *)
Lemma create_comment_response (db : Store) (now : Z) (id commentText : string) :
  (forall c, In c (comments db) -> (Comment._id c < next_id db)%nat) ->
  snd (create_comment db now id commentText)
  = Some {| Comment.p_id := next_id db;
            Comment.p_hero := Hero.findById (heroes db) id;
            Comment.p_text := commentText;
            Comment.p_createdAt := now |}.
Proof.
  intros Hfresh. unfold create_comment. cbn.
  unfold Comment.findById. rewrite find_append.
  destruct (find _ (comments db)) as [c|] eqn:Hfound.
  - apply find_some in Hfound as [Hin Heq]. cbn in Heq.
    apply Nat.eqb_eq in Heq. specialize (Hfresh c Hin). lia.
  - cbn. now rewrite Nat.eqb_refl.
Qed.

(** C8.  Hero [H] exists and its earlier comments are older than [t1].  A
    comment with text [T1] is created at [t1], a second with text [T2] at
    the later time [t2].  Page 1 of the comments of [H] then starts with the
    second comment, followed by the first, each with the text it was created
    with; every entry of the page carries the full record of [H]. *)
Theorem comments_round_trip (db : Store) (H T1 T2 : string) (h : Hero.t)
    (t1 t2 : Z) :
  Hero.findById (heroes db) H = Some h ->
  (forall c, In c (comments db) -> Comment.hero c = H ->
             Comment.createdAt c < t1) ->
  t1 < t2 ->
  let db1 := fst (create_comment db t1 H T1) in
  let db2 := fst (create_comment db1 t2 H T2) in
  let earlier := {| Comment.p_id := next_id db; Comment.p_hero := Some h;
                    Comment.p_text := T1; Comment.p_createdAt := t1 |} in
  let later := {| Comment.p_id := S (next_id db); Comment.p_hero := Some h;
                  Comment.p_text := T2; Comment.p_createdAt := t2 |} in
  let older := sort_by Comment.createdAt_desc
                 (map (Comment.populate (heroes db))
                      (Comment.find (comments db) H)) in
  option_map data (list_comments db2 H (Some "1"))
  = Some (later :: earlier :: firstn 1 older)
  /\ Forall (fun e => Comment.p_hero e = Some h)
            (later :: earlier :: firstn 1 older).
Proof.
  intros Hh Hold Ht db1 db2 earlier later older.
  assert (Holder : Forall (fun e => Comment.p_hero e = Some h) older).
  { apply Forall_forall. intros e He. apply sort_by_In in He.
    revert e He. apply Forall_forall. now apply populated_hero. }
  assert (Hage : forall e, In e (map (Comment.populate (heroes db))
                                     (Comment.find (comments db) H)) ->
                           Comment.p_createdAt e < t1).
  { intros e He. apply in_map_iff in He as (c & <- & Hc).
    apply find_comments_hero in Hc as [Hin Heq]. cbn. now apply Hold. }
  split.
  - unfold list_comments, list_comments_call. cbn [JS.of_query].
    change (skip_of (JS.VString "1") DEFAULT_COMMENTS_PER_PAGE)
      with (Some (JS.Num 0)).
    cbn [bind conditions]. unfold run_comments.
    cbn [skip_arg limit_arg conditions]. rewrite skip_zero. cbn [bind].
    change (JS.parseInt (JS.VString "1")) with (Some (JS.Num 1)).
    cbn [bind option_map data]. f_equal.
    subst db2 db1. rewrite !create_comment_store. cbn [heroes comments].
    rewrite !find_comments_app.
    rewrite !find_comments_own by reflexivity.
    rewrite !map_app. cbn [map next_id]. rewrite !populate_saved, Hh.
    fold earlier later.
    rewrite sort_by_snoc.
    + rewrite sort_by_snoc; [reflexivity|].
      intros y Hy. unfold Comment.createdAt_desc. apply Z.leb_gt.
      now apply Hage.
    + intros y Hy. unfold Comment.createdAt_desc. apply Z.leb_gt.
      apply in_app_or in Hy as [Hy|[<-|[]]]; [|exact Ht].
      specialize (Hage y Hy). cbn. lia.
  - repeat constructor. apply Forall_forall. intros e He.
    apply In_firstn in He. revert e He. now apply Forall_forall.
Qed.

Lemma comments_round_trip_witness :
  option_map data
    (list_comments
       (fst (create_comment
               (fst (create_comment Sample.only_flash 100 "5f1a" "first"))
               101 "5f1a" "second"))
       "5f1a" (Some "1"))
  = Some [{| Comment.p_id := 1; Comment.p_hero := Some Sample.flash;
             Comment.p_text := "second"; Comment.p_createdAt := 101 |};
          {| Comment.p_id := 0; Comment.p_hero := Some Sample.flash;
             Comment.p_text := "first"; Comment.p_createdAt := 100 |}].
Proof.
  refine (proj1 (comments_round_trip Sample.only_flash "5f1a" "first" "second"
                   Sample.flash 100 101 eq_refl _ eq_refl)).
  intros c [].
Defined.

(* ================================================================== *)
(** * Further properties of the handlers *)
(* ================================================================== *)

(** ** What a handler that responds has computed *)

Lemma skip_of_number (v : JS.value) (per_page : Z) (n : Z) :
  JS.ToNumber v = Some (JS.Num n) ->
  skip_of v per_page = Some (JS.Num ((n - 1) * per_page)).
Proof. intros Hn. unfold skip_of. now rewrite Hn. Qed.

(** A skip the store accepts comes from a page that reads as a number
    [n >= 1]. *)
Lemma skip_accepted {A : Type} (v : JS.value) (per_page : Z) (s : JS.number)
    (l rest : list A) :
  0 < per_page ->
  skip_of v per_page = Some s ->
  skip s l = Some rest ->
  exists n, JS.ToNumber v = Some (JS.Num n) /\ 1 <= n
            /\ s = JS.Num ((n - 1) * per_page)
            /\ rest = skipn (Z.to_nat ((n - 1) * per_page)) l.
Proof.
  intros Hper Hs Hskip. unfold skip_of in Hs.
  apply bind_some in Hs as (m & Hm & Hs). injection Hs as <-.
  destruct m as [|n]; [discriminate Hskip|]. cbn in Hskip.
  destruct (0 <=? (n - 1) * per_page) eqn:Hle; [|discriminate Hskip].
  injection Hskip as <-. apply Z.leb_le in Hle.
  exists n. split; [exact Hm|]. split; [|split; reflexivity].
  destruct (Z.le_gt_cases 1 n) as [Hge|Hlt]; [exact Hge|].
  assert (0 < (1 - n) * per_page) by (apply Z.mul_pos_pos; lia).
  lia.
Qed.

Lemma run_heroes_window (u : bool) (db : Store) (f : filter) (n : Z) :
  1 <= n ->
  run_heroes u db {| conditions := f;
                     skip_arg := JS.Num ((n - 1) * DEFAULT_HEROES_PER_PAGE);
                     limit_arg := DEFAULT_HEROES_PER_PAGE |}
  = Some (window 10 n (sort_by Hero.name_asc (Hero.find u (heroes db) f))).
Proof.
  intros Hn. unfold run_heroes, skip. cbn [skip_arg limit_arg conditions].
  replace (0 <=? (n - 1) * DEFAULT_HEROES_PER_PAGE) with true
    by (symmetry; apply Z.leb_le; unfold DEFAULT_HEROES_PER_PAGE; lia).
  reflexivity.
Qed.

Lemma run_heroes_sent (u : bool) (db : Store) (f : filter) (v : JS.value)
    (s : JS.number) (results : list Hero.t) :
  skip_of v DEFAULT_HEROES_PER_PAGE = Some s ->
  run_heroes u db {| conditions := f; skip_arg := s;
                     limit_arg := DEFAULT_HEROES_PER_PAGE |} = Some results ->
  exists n, JS.ToNumber v = Some (JS.Num n) /\ 1 <= n
            /\ results = window 10 n (sort_by Hero.name_asc
                                        (Hero.find u (heroes db) f)).
Proof.
  intros Hs Hrun. unfold run_heroes in Hrun.
  apply bind_some in Hrun as (rest & Hskip & Hrun). injection Hrun as <-.
  cbn [skip_arg limit_arg conditions] in *.
  destruct (skip_accepted _ DEFAULT_HEROES_PER_PAGE _ _ _ eq_refl Hs Hskip)
    as (n & Hn & Hge & _ & ->).
  exists n. repeat split; assumption.
Qed.

(** The response of a search over heroes with filter [f], counted with
    filter [g], on a page that reads as [n] and prints as [p]. *)
Lemma search_by_name_sent (u : bool) (db : Store) (page query : option string)
    (r : Response Hero.t) :
  search_by_name u db page query = Some r ->
  exists f n p,
    by_name_filter query = Some f
    /\ JS.ToNumber (JS.of_query page) = Some (JS.Num n) /\ 1 <= n
    /\ JS.parseInt (JS.of_query page) = Some p
    /\ r = {| data := window 10 n (sort_by Hero.name_asc
                                     (Hero.find u (heroes db) f));
              count := Hero.countDocuments u (heroes db) f;
              pagination :=
                [("page", p);
                 ("pageCount",
                  page_count (Hero.countDocuments u (heroes db) f) 10)] |}.
Proof.
  intros Hr. unfold search_by_name in Hr.
  apply bind_some in Hr as (call & Hcall & Hr).
  apply bind_some in Hr as (results & Hrun & Hr).
  apply bind_some in Hr as (p & Hp & Hr). injection Hr as <-.
  unfold search_by_name_call in Hcall.
  apply bind_some in Hcall as (f & Hf & Hcall).
  apply bind_some in Hcall as (s & Hs & Hcall). injection Hcall as <-.
  destruct (run_heroes_sent _ _ _ _ _ _ Hs Hrun) as (n & Hn & Hge & ->).
  exists f, n, p. repeat split; assumption.
Qed.

Lemma search_by_name_answers (u : bool) (db : Store)
    (page query : option string) (f : filter) (n : Z) (p : JS.number) :
  by_name_filter query = Some f ->
  JS.ToNumber (JS.of_query page) = Some (JS.Num n) -> 1 <= n ->
  JS.parseInt (JS.of_query page) = Some p ->
  search_by_name u db page query
  = Some {| data := window 10 n (sort_by Hero.name_asc
                                   (Hero.find u (heroes db) f));
            count := Hero.countDocuments u (heroes db) f;
            pagination :=
              [("page", p);
               ("pageCount",
                page_count (Hero.countDocuments u (heroes db) f) 10)] |}.
Proof.
  intros Hf Hn Hge Hp. unfold search_by_name, search_by_name_call.
  rewrite Hf, (skip_of_number _ _ _ Hn). cbn [bind conditions].
  rewrite (run_heroes_window u db f n Hge), Hp. reflexivity.
Qed.

Lemma search_by_min_stats_sent (u : bool) (db : Store) (page : option string)
    (body : StatsBody) (r : Response Hero.t) :
  search_by_min_stats u db page body = Some r ->
  exists n p,
    JS.ToNumber (JS.of_query page) = Some (JS.Num n) /\ 1 <= n
    /\ JS.parseInt (JS.of_query page) = Some p
    /\ r = {| data := window 10 n
                        (sort_by Hero.name_asc
                           (Hero.find u (heroes db) (by_min_stats_filter body)));
              count := Hero.countDocuments u (heroes db)
                         (by_min_stats_filter body);
              pagination :=
                [("page", p);
                 ("pageCount",
                  page_count (Hero.countDocuments u (heroes db)
                                (by_min_stats_filter body)) 10)] |}.
Proof.
  intros Hr. unfold search_by_min_stats in Hr.
  apply bind_some in Hr as (call & Hcall & Hr).
  apply bind_some in Hr as (results & Hrun & Hr).
  apply bind_some in Hr as (p & Hp & Hr). injection Hr as <-.
  unfold search_by_min_stats_call in Hcall.
  apply bind_some in Hcall as (s & Hs & Hcall). injection Hcall as <-.
  destruct (run_heroes_sent _ _ _ _ _ _ Hs Hrun) as (n & Hn & Hge & ->).
  exists n, p. repeat split; assumption.
Qed.

Lemma search_by_min_stats_answers (u : bool) (db : Store)
    (page : option string) (body : StatsBody) (n : Z) (p : JS.number) :
  JS.ToNumber (JS.of_query page) = Some (JS.Num n) -> 1 <= n ->
  JS.parseInt (JS.of_query page) = Some p ->
  search_by_min_stats u db page body
  = Some {| data := window 10 n
                      (sort_by Hero.name_asc
                         (Hero.find u (heroes db) (by_min_stats_filter body)));
            count := Hero.countDocuments u (heroes db)
                       (by_min_stats_filter body);
            pagination :=
              [("page", p);
               ("pageCount",
                page_count (Hero.countDocuments u (heroes db)
                              (by_min_stats_filter body)) 10)] |}.
Proof.
  intros Hn Hge Hp. unfold search_by_min_stats, search_by_min_stats_call.
  rewrite (skip_of_number _ _ _ Hn). cbn [bind conditions].
  rewrite (run_heroes_window u db _ n Hge), Hp. reflexivity.
Qed.

Lemma search_sent (u : bool) (db : Store) (q : SearchQuery)
    (r : Response Hero.t) :
  search u db q = Some r ->
  exists f g n p,
    search_filter q = Some f /\ search_count_filter q = Some g
    /\ JS.ToNumber (JS.of_query (q_page q)) = Some (JS.Num n) /\ 1 <= n
    /\ JS.parseInt (JS.of_query (q_page q)) = Some p
    /\ r = {| data := window 10 n (sort_by Hero.name_asc
                                     (Hero.find u (heroes db) f));
              count := Hero.countDocuments u (heroes db) g;
              pagination :=
                [("page", p);
                 ("pageCount",
                  page_count (Hero.countDocuments u (heroes db) g) 10)] |}.
Proof.
  intros Hr. unfold search in Hr.
  apply bind_some in Hr as (call & Hcall & Hr).
  apply bind_some in Hr as (results & Hrun & Hr).
  apply bind_some in Hr as (g & Hg & Hr).
  apply bind_some in Hr as (p & Hp & Hr). injection Hr as <-.
  unfold search_call in Hcall.
  apply bind_some in Hcall as (f & Hf & Hcall).
  apply bind_some in Hcall as (s & Hs & Hcall). injection Hcall as <-.
  destruct (run_heroes_sent _ _ _ _ _ _ Hs Hrun) as (n & Hn & Hge & ->).
  exists f, g, n, p. repeat split; assumption.
Qed.

Lemma search_answers (u : bool) (db : Store) (q : SearchQuery)
    (f g : filter) (n : Z) (p : JS.number) :
  search_filter q = Some f -> search_count_filter q = Some g ->
  JS.ToNumber (JS.of_query (q_page q)) = Some (JS.Num n) -> 1 <= n ->
  JS.parseInt (JS.of_query (q_page q)) = Some p ->
  search u db q
  = Some {| data := window 10 n (sort_by Hero.name_asc
                                   (Hero.find u (heroes db) f));
            count := Hero.countDocuments u (heroes db) g;
            pagination :=
              [("page", p);
               ("pageCount",
                page_count (Hero.countDocuments u (heroes db) g) 10)] |}.
Proof.
  intros Hf Hg Hn Hge Hp. unfold search, search_call.
  rewrite Hf, (skip_of_number _ _ _ Hn). cbn [bind conditions].
  rewrite (run_heroes_window u db f n Hge), Hg, Hp. reflexivity.
Qed.

Lemma list_heroes_answers (u : bool) (db : Store) (page : option string)
    (v : JS.value) (n : Z) (q : JS.number) :
  list_heroes_page page = Some v ->
  JS.ToNumber v = Some (JS.Num n) -> 1 <= n ->
  JS.parseInt v = Some q ->
  list_heroes u db page
  = Some {| data := window 10 n (sort_by Hero.name_asc (heroes db));
            count := Z.of_nat (List.length (heroes db));
            pagination :=
              [("previousPage", if n =? 1 then JS.Num 1 else JS.Num (n - 1));
               ("nextPage", JS.add q (JS.Num 1));
               ("page", q);
               ("pageCount",
                page_count (Z.of_nat (List.length (heroes db))) 10)] |}.
Proof.
  intros Hv Hn Hge Hq.
  unfold list_heroes, list_heroes_call, JS.loose_eq.
  rewrite Hv. cbn [bind]. rewrite Hn, Hq. cbn [bind].
  rewrite (skip_of_number _ _ _ Hn). cbn [bind].
  rewrite (run_heroes_window u db _ n Hge). cbn [bind].
  rewrite count_all, find_all. cbn [JS.sub JS.number_eqb].
  now destruct (n =? 1).
Qed.

Lemma list_heroes_sent (u : bool) (db : Store) (page : option string)
    (r : Response Hero.t) :
  list_heroes u db page = Some r ->
  exists v n q,
    list_heroes_page page = Some v
    /\ JS.ToNumber v = Some (JS.Num n) /\ 1 <= n
    /\ JS.parseInt v = Some q
    /\ r = {| data := window 10 n (sort_by Hero.name_asc (heroes db));
              count := Z.of_nat (List.length (heroes db));
              pagination :=
                [("previousPage", if n =? 1 then JS.Num 1 else JS.Num (n - 1));
                 ("nextPage", JS.add q (JS.Num 1));
                 ("page", q);
                 ("pageCount",
                  page_count (Z.of_nat (List.length (heroes db))) 10)] |}.
Proof.
  intros Hr. pose proof Hr as Hsent. unfold list_heroes in Hr.
  apply bind_some in Hr as (v & Hv & Hr).
  apply bind_some in Hr as (m & Hm & Hr).
  apply bind_some in Hr as (q & Hq & Hr).
  apply bind_some in Hr as (first & _ & Hr).
  apply bind_some in Hr as (call & Hcall & Hr).
  apply bind_some in Hr as (results & Hrun & _).
  unfold list_heroes_call in Hcall. rewrite Hv in Hcall. cbn [bind] in Hcall.
  apply bind_some in Hcall as (s & Hs & Hcall). injection Hcall as <-.
  destruct (run_heroes_sent _ _ _ _ _ _ Hs Hrun) as (n & Hn & Hge & _).
  exists v, n, q. repeat split; try assumption.
  rewrite (list_heroes_answers u db page v n q Hv Hn Hge Hq) in Hsent.
  now injection Hsent.
Qed.

Lemma run_comments_window (db : Store) (id : string) (n : Z) :
  1 <= n ->
  run_comments db {| conditions := id;
                     skip_arg := JS.Num ((n - 1) * DEFAULT_COMMENTS_PER_PAGE);
                     limit_arg := DEFAULT_COMMENTS_PER_PAGE |}
  = Some (window 3 n (sort_by Comment.createdAt_desc
                        (map (Comment.populate (heroes db))
                             (Comment.find (comments db) id)))).
Proof.
  intros Hn. unfold run_comments, skip. cbn [skip_arg limit_arg conditions].
  replace (0 <=? (n - 1) * DEFAULT_COMMENTS_PER_PAGE) with true
    by (symmetry; apply Z.leb_le; unfold DEFAULT_COMMENTS_PER_PAGE; lia).
  reflexivity.
Qed.

Lemma list_comments_answers (db : Store) (id : string) (page : option string)
    (n : Z) (p : JS.number) :
  JS.ToNumber (JS.of_query page) = Some (JS.Num n) -> 1 <= n ->
  JS.parseInt (JS.of_query page) = Some p ->
  list_comments db id page
  = Some {| data := window 3 n
                      (sort_by Comment.createdAt_desc
                         (map (Comment.populate (heroes db))
                              (Comment.find (comments db) id)));
            count := Z.of_nat (List.length (Comment.find (comments db) id));
            pagination :=
              [("page", p);
               ("pageCount",
                page_count
                  (Z.of_nat (List.length (Comment.find (comments db) id)))
                  3)] |}.
Proof.
  intros Hn Hge Hp. unfold list_comments, list_comments_call.
  rewrite (skip_of_number _ _ _ Hn). cbn [bind].
  rewrite (run_comments_window db id n Hge), Hp. reflexivity.
Qed.

Lemma list_comments_sent (db : Store) (id : string) (page : option string)
    (r : Response Comment.populated) :
  list_comments db id page = Some r ->
  exists n p,
    JS.ToNumber (JS.of_query page) = Some (JS.Num n) /\ 1 <= n
    /\ JS.parseInt (JS.of_query page) = Some p
    /\ r = {| data := window 3 n
                        (sort_by Comment.createdAt_desc
                           (map (Comment.populate (heroes db))
                                (Comment.find (comments db) id)));
              count := Z.of_nat (List.length (Comment.find (comments db) id));
              pagination :=
                [("page", p);
                 ("pageCount",
                  page_count
                    (Z.of_nat (List.length (Comment.find (comments db) id)))
                    3)] |}.
Proof.
  intros Hr. pose proof Hr as Hsent. unfold list_comments in Hr.
  apply bind_some in Hr as (call & Hcall & Hr).
  apply bind_some in Hr as (results & Hrun & Hr).
  apply bind_some in Hr as (p & Hp & _).
  unfold list_comments_call in Hcall.
  apply bind_some in Hcall as (s & Hs & Hcall). injection Hcall as <-.
  unfold run_comments in Hrun. cbn [skip_arg limit_arg conditions] in Hrun.
  apply bind_some in Hrun as (rest & Hskip & _).
  destruct (skip_accepted _ DEFAULT_COMMENTS_PER_PAGE _ _ _ eq_refl Hs Hskip)
    as (n & Hn & Hge & _).
  exists n, p. repeat split; try assumption.
  rewrite (list_comments_answers db id page n p Hn Hge Hp) in Hsent.
  now injection Hsent.
Qed.

(** ** Windows of a list *)

Lemma window_length {A : Type} (size n : Z) (l : list A) :
  (List.length (window size n l) <= Z.to_nat size)%nat
  /\ (List.length (window size n l) <= List.length l)%nat.
Proof.
  unfold window. split.
  - apply firstn_le_length.
  - rewrite length_firstn, length_skipn. lia.
Qed.

Lemma window_In {A : Type} (size n : Z) (l : list A) (x : A) :
  In x (window size n l) -> In x l.
Proof. unfold window. intros Hx. now apply In_firstn, In_skipn in Hx. Qed.

Lemma Sorted_skipn {A : Type} (R : A -> A -> Prop) (k : nat) (l : list A) :
  Sorted R l -> Sorted R (skipn k l).
Proof.
  revert l. induction k as [|k IH]; intros l Hl; [exact Hl|].
  destruct l as [|x l]; [constructor|]. cbn. apply IH.
  now inversion Hl.
Qed.

Lemma Sorted_firstn {A : Type} (R : A -> A -> Prop) (k : nat) (l : list A) :
  Sorted R l -> Sorted R (firstn k l).
Proof.
  revert l. induction k as [|k IH]; intros l Hl; [constructor|].
  destruct l as [|x l]; [constructor|]. cbn.
  inversion Hl as [|? ? Hrest Hhd]; subst. constructor; [now apply IH|].
  destruct k; [constructor|]. destruct Hhd; cbn; now constructor.
Qed.

Lemma window_sorted {A : Type} (R : A -> A -> Prop) (size n : Z) (l : list A) :
  Sorted R l -> Sorted R (window size n l).
Proof. intros Hl. unfold window. now apply Sorted_firstn, Sorted_skipn. Qed.

Lemma firstn_add {A : Type} (a b : nat) (l : list A) :
  firstn (a + b) l = firstn a l ++ firstn b (skipn a l).
Proof.
  revert l. induction a as [|a IH]; intros l; [reflexivity|].
  destruct l as [|x l]; cbn; [now rewrite firstn_nil|].
  now rewrite IH.
Qed.

(** The first [k] windows, one after the other, are the first [k] times
    [size] records. *)
Lemma windows_concat {A : Type} (size : Z) (k : nat) (l : list A) :
  0 <= size ->
  List.concat (map (fun i => window size (Z.of_nat i + 1) l) (seq 0 k))
  = firstn (k * Z.to_nat size) l.
Proof.
  intros Hsize. induction k as [|k IH]; [reflexivity|].
  rewrite seq_S, map_app, concat_app, IH. cbn [map List.concat plus].
  rewrite app_nil_r. unfold window.
  replace (Z.to_nat ((Z.of_nat k + 1 - 1) * size))
    with (k * Z.to_nat size)%nat by nia.
  rewrite <- firstn_add. f_equal. lia.
Qed.

(** As many windows as [Math.ceil(length / size)] hold the whole list. *)
Lemma windows_cover {A : Type} (size : Z) (l : list A) :
  0 < size ->
  List.concat (map (fun i => window size (Z.of_nat i + 1) l)
              (seq 0 (Z.to_nat (JS.ceil_div (Z.of_nat (List.length l)) size))))
  = l.
Proof.
  intros Hsize. rewrite windows_concat by lia. apply firstn_all2.
  unfold JS.ceil_div.
  assert (Hdiv : Z.of_nat (List.length l)
                 <= size * ((Z.of_nat (List.length l) + size - 1) / size)).
  { pose proof (Z.mul_succ_div_gt (Z.of_nat (List.length l) + size - 1) size
                  Hsize). lia. }
  nia.
Qed.

Lemma sort_by_length {A : Type} (before : A -> A -> bool) (l : list A) :
  List.length (sort_by before l) = List.length l.
Proof. apply Permutation_length, sort_by_perm. Qed.

(* ================================================================== *)
(** ** GET /heroes: the page parameter *)
(* ================================================================== *)

Lemma list_heroes_page_number (s : string) (n : Z) :
  JS.ToNumber (JS.VString s) = Some (JS.Num n) ->
  list_heroes_page (Some s) = Some (JS.VString s).
Proof.
  intros Hn. unfold list_heroes_page, JS.isNaN. cbn [JS.of_query].
  now rewrite Hn.
Qed.

(** X1.  When the page parameter is absent or does not read as a number,
    [GET /heroes] answers as for page 1: the first ten heroes by name, the
    size of the collection, previous page 1 and next page 2. *)
Theorem list_heroes_unusable_page (u : bool) (db : Store)
    (page : option string) :
  JS.isNaN (JS.of_query page) = Some true ->
  list_heroes u db page
  = Some {| data := firstn 10 (sort_by Hero.name_asc (heroes db));
            count := Z.of_nat (List.length (heroes db));
            pagination :=
              [("previousPage", JS.Num 1);
               ("nextPage", JS.Num 2);
               ("page", JS.Num 1);
               ("pageCount",
                page_count (Z.of_nat (List.length (heroes db))) 10)] |}.
Proof.
  intros Hnan.
  destruct (list_heroes_default_page page Hnan) as [Hpage _].
  exact (list_heroes_answers u db page _ 1 (JS.Num 1) Hpage eq_refl
           (Z.le_refl 1) eq_refl).
Qed.

Lemma list_heroes_unusable_page_witness :
  option_map pagination
    (list_heroes true Sample.flora_and_flash (Some "2abc"))
  = Some [("previousPage", JS.Num 1); ("nextPage", JS.Num 2);
          ("page", JS.Num 1); ("pageCount", JS.Num 1)].
Proof.
  exact (f_equal (option_map pagination)
           (list_heroes_unusable_page true Sample.flora_and_flash
              (Some "2abc") eq_refl)).
Defined.

(** X2.  [GET /heroes] reads a page text twice.  The window it fetches and
    [previousPage] follow [Number(page)], which takes the whole text; the
    [page] and [nextPage] it reports follow [parseInt(page)], which stops
    at the first character that is no digit.  Where the two readings differ
    the response names another page than the one it holds. *)
Theorem list_heroes_two_readings (u : bool) (db : Store) (s : string)
    (n : Z) (q : JS.number) :
  JS.ToNumber (JS.VString s) = Some (JS.Num n) ->
  JS.parseInt (JS.VString s) = Some q ->
  1 <= n ->
  list_heroes u db (Some s)
  = Some {| data := window 10 n (sort_by Hero.name_asc (heroes db));
            count := Z.of_nat (List.length (heroes db));
            pagination :=
              [("previousPage", if n =? 1 then JS.Num 1 else JS.Num (n - 1));
               ("nextPage", JS.add q (JS.Num 1));
               ("page", q);
               ("pageCount",
                page_count (Z.of_nat (List.length (heroes db))) 10)] |}.
Proof.
  intros Hn Hq Hge.
  exact (list_heroes_answers u db (Some s) _ n q
           (list_heroes_page_number s n Hn) Hn Hge Hq).
Qed.

Lemma list_heroes_two_readings_witness :
  list_heroes true Sample.twenty_five (Some "0b11")
  = Some {| data := window 10 3 (sort_by Hero.name_asc
                                   (heroes Sample.twenty_five));
            count := 25;
            pagination := [("previousPage", JS.Num 2); ("nextPage", JS.Num 1);
                           ("page", JS.Num 0); ("pageCount", JS.Num 3)] |}.
Proof.
  exact (list_heroes_two_readings true Sample.twenty_five "0b11" 3 (JS.Num 0)
           eq_refl eq_refl ltac:(lia)).
Defined.

(** X3.  The guard of [GET /heroes] catches only what is not a number: for
    a page text that reads as [n <= 0], such as [0] or the empty text, the
    handler asks the store to skip [(n - 1) * 10] records, a negative
    number. *)
Theorem list_heroes_nonpositive_page (s : string) (n : Z) :
  JS.ToNumber (JS.VString s) = Some (JS.Num n) ->
  n <= 0 ->
  exists z,
    list_heroes_call (Some s)
    = Some {| conditions := Fields [];
              skip_arg := JS.Num z;
              limit_arg := DEFAULT_HEROES_PER_PAGE |}
    /\ z = (n - 1) * 10 /\ z <= -10.
Proof.
  intros Hn Hle. exists ((n - 1) * 10). split; [|lia].
  unfold list_heroes_call, list_heroes_page, JS.isNaN. cbn [JS.of_query].
  rewrite Hn. cbn [bind]. now rewrite (skip_of_number _ _ _ Hn).
Qed.

Lemma list_heroes_nonpositive_page_witness :
  exists z,
    list_heroes_call (Some "0")
    = Some {| conditions := Fields [];
              skip_arg := JS.Num z;
              limit_arg := DEFAULT_HEROES_PER_PAGE |}
    /\ z = (0 - 1) * 10 /\ z <= -10.
Proof.
  exact (list_heroes_nonpositive_page "0" 0 eq_refl (Z.le_refl 0)).
Defined.

(** Page [i + 1] of the hero list, asked for in decimal digits. *)
Lemma list_heroes_decimal_page (u : bool) (db : Store) (i : nat) :
  Z.of_nat i + 1 <= JS.modelled_bound ->
  data_of (list_heroes u db (Some (JS.decimal (Z.of_nat i + 1))))
  = window 10 (Z.of_nat i + 1) (sort_by Hero.name_asc (heroes db)).
Proof.
  intros Hi.
  destruct (DecimalText.decimal_reads_back (Z.of_nat i + 1) ltac:(lia))
    as [Hn Hq].
  rewrite (list_heroes_answers u db _ _ _ _
             (list_heroes_page_number _ _ Hn) Hn ltac:(lia) Hq).
  reflexivity.
Qed.

(** X4.  Walking the hero list from page 1 to page [pageCount] meets every
    hero of the collection once, in the order of the names: the pages put
    end to end are the sorted collection. *)
Theorem list_heroes_pages_cover (u : bool) (db : Store) :
  Z.of_nat (List.length (heroes db)) <= JS.modelled_bound ->
  let pages :=
    Z.to_nat (JS.ceil_div (Z.of_nat (List.length (heroes db))) 10) in
  let walked :=
    List.concat
      (map (fun i => data_of (list_heroes u db
                                (Some (JS.decimal (Z.of_nat i + 1)))))
           (seq 0 pages)) in
  walked = sort_by Hero.name_asc (heroes db)
  /\ Permutation walked (heroes db).
Proof.
  intros Hsize pages walked.
  assert (Hwalked : walked = sort_by Hero.name_asc (heroes db)).
  { subst walked pages.
    rewrite <- (windows_cover 10 (sort_by Hero.name_asc (heroes db)))
      at 1 by lia.
    rewrite sort_by_length. f_equal. apply map_ext_in.
    intros i Hi. apply in_seq in Hi. apply list_heroes_decimal_page.
    unfold JS.ceil_div in Hi.
    destruct (heroes db) as [|h rest]; [cbn in Hi; lia|].
    assert (Hdiv : (Z.of_nat (List.length (h :: rest)) + 10 - 1) / 10
                   <= Z.of_nat (List.length (h :: rest))).
    { apply Z.div_le_upper_bound; cbn [List.length]; lia. }
    lia. }
  split; [exact Hwalked|]. rewrite Hwalked. apply sort_by_perm.
Qed.

Lemma list_heroes_pages_cover_witness :
  List.concat
    (map (fun i => data_of (list_heroes true Sample.twenty_five
                              (Some (JS.decimal (Z.of_nat i + 1)))))
         (seq 0 3))
  = sort_by Hero.name_asc (heroes Sample.twenty_five).
Proof.
  refine (proj1 (list_heroes_pages_cover true Sample.twenty_five _)).
  unfold JS.modelled_bound. cbn. lia.
Defined.

(* ================================================================== *)
(** ** What every page holds *)
(* ================================================================== *)

Lemma find_length (u : bool) (collection : list Hero.t) (f : filter) :
  Hero.countDocuments u collection f
  = Z.of_nat (List.length (Hero.find u collection f)).
Proof. reflexivity. Qed.

(** A hero that passes the filter of the combined search passes the filter
    its count is taken with. *)
Lemma search_filter_counted (u : bool) (q : SearchQuery) (f g : filter)
    (h : Hero.t) :
  search_filter q = Some f ->
  search_count_filter q = Some g ->
  Hero.matches u f h = true -> Hero.matches u g h = true.
Proof.
  unfold search_filter, search_count_filter. intros Hf Hg.
  apply bind_some in Hf as (r & Hr & Hf). rewrite Hr in Hg.
  injection Hf as <-. injection Hg as <-.
  unfold Hero.matches. cbn [satisfies forallb]. intros Hm.
  apply andb_true_iff in Hm as [Hm _]. now rewrite Hm.
Qed.

Lemma filter_length_le {A : Type} (f g : A -> bool) (l : list A) :
  (forall x, f x = true -> g x = true) ->
  (List.length (List.filter f l) <= List.length (List.filter g l))%nat.
Proof.
  intros Hfg. induction l as [|x l IH]; cbn; [lia|].
  destruct (f x) eqn:Hf.
  - rewrite (Hfg x Hf). cbn. lia.
  - destruct (g x); cbn; lia.
Qed.

(** X5.  Whenever a handler responds, its page holds at most ten heroes
    (three comments), and never more records than the [count] beside it;
    this holds for the combined search too, whose count is taken with the
    name clause alone. *)
Theorem page_holds (u : bool) (db : Store) :
  (forall page r,
     list_heroes u db page = Some r ->
     (List.length (data r) <= 10)%nat
     /\ Z.of_nat (List.length (data r)) <= count r)
  /\ (forall page query r,
        search_by_name u db page query = Some r ->
        (List.length (data r) <= 10)%nat
        /\ Z.of_nat (List.length (data r)) <= count r)
  /\ (forall page body r,
        search_by_min_stats u db page body = Some r ->
        (List.length (data r) <= 10)%nat
        /\ Z.of_nat (List.length (data r)) <= count r)
  /\ (forall q r,
        search u db q = Some r ->
        (List.length (data r) <= 10)%nat
        /\ Z.of_nat (List.length (data r)) <= count r)
  /\ (forall id page r,
        list_comments db id page = Some r ->
        (List.length (data r) <= 3)%nat
        /\ Z.of_nat (List.length (data r)) <= count r).
Proof.
  refine (conj _ (conj _ (conj _ (conj _ _)))).
  - intros page r Hr.
    apply list_heroes_sent in Hr as (v & n & q & _ & _ & _ & _ & ->).
    cbn [data count].
    destruct (window_length 10 n (sort_by Hero.name_asc (heroes db)))
      as [Hsize Hlen].
    rewrite sort_by_length in Hlen. split; [exact Hsize|lia].
  - intros page query r Hr.
    apply search_by_name_sent in Hr as (f & n & p & _ & _ & _ & _ & ->).
    cbn [data count]. rewrite find_length.
    destruct (window_length 10 n
                (sort_by Hero.name_asc (Hero.find u (heroes db) f)))
      as [Hsize Hlen].
    rewrite sort_by_length in Hlen. split; [exact Hsize|lia].
  - intros page body r Hr.
    apply search_by_min_stats_sent in Hr as (n & p & _ & _ & _ & ->).
    cbn [data count]. rewrite find_length.
    destruct (window_length 10 n
                (sort_by Hero.name_asc
                   (Hero.find u (heroes db) (by_min_stats_filter body))))
      as [Hsize Hlen].
    rewrite sort_by_length in Hlen. split; [exact Hsize|lia].
  - intros q r Hr.
    apply search_sent in Hr as (f & g & n & p & Hf & Hg & _ & _ & _ & ->).
    cbn [data count]. rewrite find_length.
    destruct (window_length 10 n
                (sort_by Hero.name_asc (Hero.find u (heroes db) f)))
      as [Hsize Hlen].
    rewrite sort_by_length in Hlen. split; [exact Hsize|].
    pose proof (filter_length_le (Hero.matches u f) (Hero.matches u g)
                  (heroes db)
                  (fun h => search_filter_counted u q f g h Hf Hg)) as Hle.
    unfold Hero.find in *. lia.
  - intros id page r Hr.
    apply list_comments_sent in Hr as (n & p & _ & _ & _ & ->).
    cbn [data count].
    destruct (window_length 3 n
                (sort_by Comment.createdAt_desc
                   (map (Comment.populate (heroes db))
                        (Comment.find (comments db) id))))
      as [Hsize Hlen].
    rewrite sort_by_length, length_map in Hlen. split; [exact Hsize|lia].
Qed.

Lemma page_holds_witness :
  (List.length (data_of (list_heroes true Sample.twenty_five (Some "1")))
   <= 10)%nat
  /\ (List.length
        (data_of (search_by_name true Sample.twenty_five (Some "1") (Some "fl")))
      <= 10)%nat
  /\ (List.length
        (data_of (search_by_min_stats true Sample.twenty_five (Some "1")
                    [("speed", 10%Z)]))
      <= 10)%nat
  /\ (List.length
        (data_of (search true Sample.twenty_five
                    (Sample.full_query (Some "1") (Some "fl") "Male" 0%Z)))
      <= 10)%nat
  /\ (List.length (data_of (list_comments Sample2.one_comment "5f1a" (Some "1")))
      <= 3)%nat.
Proof.
  destruct (page_holds true Sample.twenty_five)
    as (Hlist & Hname & Hstats & Hsearch & _).
  destruct (page_holds true Sample2.one_comment) as (_ & _ & _ & _ & Hcomments).
  refine (conj _ (conj _ (conj _ (conj _ _)))).
  - exact (proj1 (Hlist (Some "1") _ eq_refl)).
  - exact (proj1 (Hname (Some "1") (Some "fl") _ eq_refl)).
  - exact (proj1 (Hstats (Some "1") [("speed", 10%Z)] _ eq_refl)).
  - exact (proj1 (Hsearch (Sample.full_query (Some "1") (Some "fl") "Male" 0%Z)
                    _ eq_refl)).
  - exact (proj1 (Hcomments "5f1a" (Some "1") _ eq_refl)).
Defined.

Lemma name_asc_total (x y : Hero.t) :
  Hero.name_asc x y = true \/ Hero.name_asc y x = true.
Proof. apply String.leb_total. Qed.

Lemma heroes_window_sorted (u : bool) (db : Store) (f : filter) (n : Z) :
  let page := window 10 n (sort_by Hero.name_asc (Hero.find u (heroes db) f)) in
  Sorted (fun a b => String.leb (Hero.name a) (Hero.name b) = true) page
  /\ forall h, In h page -> In h (heroes db) /\ Hero.matches u f h = true.
Proof.
  intros page. split.
  - apply window_sorted. apply (sort_by_sorted Hero.name_asc name_asc_total).
  - intros h Hh. apply window_In, sort_by_In in Hh.
    unfold Hero.find in Hh. now apply filter_In in Hh.
Qed.

(** X6.  Whenever one of the four handlers that list heroes responds, the
    heroes of its page come from the collection and stand in the order of
    their names: each name is at most the next one. *)
Theorem hero_pages_sorted (u : bool) (db : Store) :
  let in_order (r : Response Hero.t) :=
    Sorted (fun a b => String.leb (Hero.name a) (Hero.name b) = true) (data r)
    /\ forall h, In h (data r) -> In h (heroes db) in
  (forall page r, list_heroes u db page = Some r -> in_order r)
  /\ (forall page query r,
        search_by_name u db page query = Some r -> in_order r)
  /\ (forall page body r,
        search_by_min_stats u db page body = Some r -> in_order r)
  /\ (forall q r, search u db q = Some r -> in_order r).
Proof.
  intros in_order. subst in_order. cbv beta.
  refine (conj _ (conj _ (conj _ _))).
  - intros page r Hr.
    apply list_heroes_sent in Hr as (v & n & q & _ & _ & _ & _ & ->).
    cbn [data]. rewrite <- (find_all u db).
    destruct (heroes_window_sorted u db (Fields []) n) as [Hs Hin].
    split; [exact Hs|]. intros h Hh. rewrite find_all. now apply Hin.
  - intros page query r Hr.
    apply search_by_name_sent in Hr as (f & n & p & _ & _ & _ & _ & ->).
    cbn [data]. destruct (heroes_window_sorted u db f n) as [Hs Hin].
    split; [exact Hs|]. intros h Hh. now apply Hin.
  - intros page body r Hr.
    apply search_by_min_stats_sent in Hr as (n & p & _ & _ & _ & ->).
    cbn [data].
    destruct (heroes_window_sorted u db (by_min_stats_filter body) n)
      as [Hs Hin].
    split; [exact Hs|]. intros h Hh. now apply Hin.
  - intros q r Hr.
    apply search_sent in Hr as (f & g & n & p & _ & _ & _ & _ & _ & ->).
    cbn [data]. destruct (heroes_window_sorted u db f n) as [Hs Hin].
    split; [exact Hs|]. intros h Hh. now apply Hin.
Qed.

Lemma hero_pages_sorted_witness :
  Sorted (fun a b => String.leb (Hero.name a) (Hero.name b) = true)
         (data_of (list_heroes true Sample.flora_and_flash (Some "1")))
  /\ Sorted (fun a b => String.leb (Hero.name a) (Hero.name b) = true)
            (data_of (search_by_name true Sample.flora_and_flash (Some "1")
                        (Some "fl")))
  /\ Sorted (fun a b => String.leb (Hero.name a) (Hero.name b) = true)
            (data_of (search_by_min_stats true Sample.flora_and_flash
                        (Some "1") [("speed", 10)]))
  /\ Sorted (fun a b => String.leb (Hero.name a) (Hero.name b) = true)
            (data_of (search true Sample.flora_and_flash
                        (Sample.full_query (Some "1") (Some "fl") "Male" 0))).
Proof.
  destruct (hero_pages_sorted true Sample.flora_and_flash)
    as (Hlist & Hname & Hstats & Hsearch).
  refine (conj _ (conj _ (conj _ _))).
  - exact (proj1 (Hlist (Some "1") _ eq_refl)).
  - exact (proj1 (Hname (Some "1") (Some "fl") _ eq_refl)).
  - exact (proj1 (Hstats (Some "1") [("speed", 10)] _ eq_refl)).
  - exact (proj1 (Hsearch (Sample.full_query (Some "1") (Some "fl") "Male" 0)
                    _ eq_refl)).
Defined.

Lemma page_count_enough (c per_page : Z) :
  0 <= c -> 0 < per_page ->
  per_page * (JS.ceil_div c per_page - 1) < c
  <= per_page * JS.ceil_div c per_page.
Proof.
  intros Hc Hper. unfold JS.ceil_div.
  pose proof (Z.mul_div_le (c + per_page - 1) per_page Hper).
  pose proof (Z.mul_succ_div_gt (c + per_page - 1) per_page Hper).
  lia.
Qed.

(** X7.  Whenever a handler responds, the [pageCount] it reports is the
    least number of pages that hold [count] records: that many pages of ten
    (three for comments) are enough, and one fewer is not. *)
Theorem responses_enough_pages (u : bool) (db : Store) :
  (forall page r, list_heroes u db page = Some r -> enough_pages 10 r)
  /\ (forall page query r,
        search_by_name u db page query = Some r -> enough_pages 10 r)
  /\ (forall page body r,
        search_by_min_stats u db page body = Some r -> enough_pages 10 r)
  /\ (forall q r, search u db q = Some r -> enough_pages 10 r)
  /\ (forall id page r,
        list_comments db id page = Some r -> enough_pages 3 r).
Proof.
  refine (conj _ (conj _ (conj _ (conj _ _)))).
  - intros page r Hr.
    apply list_heroes_sent in Hr as (v & n & q & _ & _ & _ & _ & ->).
    eexists. split; [cbn; do 3 right; left; reflexivity|].
    cbn [count]. apply page_count_enough; lia.
  - intros page query r Hr.
    apply search_by_name_sent in Hr as (f & n & p & _ & _ & _ & _ & ->).
    eexists. split; [cbn; right; left; reflexivity|].
    cbn [count]. apply page_count_enough; [rewrite find_length|]; lia.
  - intros page body r Hr.
    apply search_by_min_stats_sent in Hr as (n & p & _ & _ & _ & ->).
    eexists. split; [cbn; right; left; reflexivity|].
    cbn [count]. apply page_count_enough; [rewrite find_length|]; lia.
  - intros q r Hr.
    apply search_sent in Hr as (f & g & n & p & _ & _ & _ & _ & _ & ->).
    eexists. split; [cbn; right; left; reflexivity|].
    cbn [count]. apply page_count_enough; [rewrite find_length|]; lia.
  - intros id page r Hr.
    apply list_comments_sent in Hr as (n & p & _ & _ & _ & ->).
    eexists. split; [cbn; right; left; reflexivity|].
    cbn [count]. apply page_count_enough; lia.
Qed.

Lemma responses_enough_pages_witness :
  (exists r, list_heroes true Sample.twenty_five (Some "1") = Some r
             /\ enough_pages 10 r)
  /\ (exists r, search_by_name true Sample.twenty_five (Some "1") (Some "fl")
                = Some r /\ enough_pages 10 r)
  /\ (exists r, search_by_min_stats true Sample.twenty_five (Some "1")
                  [("speed", 10)] = Some r /\ enough_pages 10 r)
  /\ (exists r, search true Sample.twenty_five
                  (Sample.full_query (Some "1") (Some "fl") "Male" 0) = Some r
                /\ enough_pages 10 r)
  /\ (exists r, list_comments Sample2.one_comment "5f1a" (Some "1") = Some r
                /\ enough_pages 3 r).
Proof.
  destruct (responses_enough_pages true Sample.twenty_five)
    as (Hlist & Hname & Hstats & Hsearch & _).
  destruct (responses_enough_pages true Sample2.one_comment)
    as (_ & _ & _ & _ & Hcomments).
  refine (conj _ (conj _ (conj _ (conj _ _)))).
  - eexists. split; [reflexivity|]. exact (Hlist (Some "1") _ eq_refl).
  - eexists. split; [reflexivity|].
    exact (Hname (Some "1") (Some "fl") _ eq_refl).
  - eexists. split; [reflexivity|].
    exact (Hstats (Some "1") [("speed", 10)] _ eq_refl).
  - eexists. split; [reflexivity|].
    exact (Hsearch (Sample.full_query (Some "1") (Some "fl") "Male" 0)
             _ eq_refl).
  - eexists. split; [reflexivity|].
    exact (Hcomments "5f1a" (Some "1") _ eq_refl).
Defined.

(* ================================================================== *)
(** ** POST /search/heroes/by-name: queries of plain text *)
(* ================================================================== *)

Lemma by_name_filter_plain (q : string) :
  Pattern.plain (list_ascii_of_string q) ->
  by_name_filter (Some q)
  = Some (Fields [("name",
                   Regex (Pattern.literal (list_ascii_of_string q)))]).
Proof.
  intros Hq. unfold by_name_filter, Pattern.RegExp. cbn.
  now rewrite (PatternFacts.parse_plain _ Hq).
Qed.

Lemma matches_literal (u : bool) (q : list ascii) (h : Hero.t) :
  Hero.matches u (Fields [("name", Regex (Pattern.literal q))]) h
  = Pattern.starts_with_ci q (list_ascii_of_string (Hero.name h)).
Proof.
  unfold Hero.matches. cbn [satisfies forallb].
  rewrite holds_name_regex, andb_true_r. unfold Pattern.test.
  apply PatternFacts.matches_prefix_literal.
Qed.

Lemma find_ext (u : bool) (collection : list Hero.t) (f : filter)
    (keep : Hero.t -> bool) :
  (forall h, Hero.matches u f h = keep h) ->
  Hero.find u collection f = List.filter keep collection.
Proof. intros Hf. unfold Hero.find. now apply filter_ext. Qed.

(** Two queries whose filters admit the same heroes get the same answer. *)
Lemma search_by_name_ext (u : bool) (db : Store) (page q1 q2 : option string)
    (f1 f2 : filter) :
  by_name_filter q1 = Some f1 ->
  by_name_filter q2 = Some f2 ->
  (forall h, Hero.matches u f1 h = Hero.matches u f2 h) ->
  search_by_name u db page q1 = search_by_name u db page q2.
Proof.
  intros H1 H2 Hsame. unfold search_by_name, search_by_name_call.
  rewrite H1, H2. cbn [bind].
  destruct (skip_of (JS.of_query page) DEFAULT_HEROES_PER_PAGE) as [s|];
    [|reflexivity].
  cbn [bind]. unfold run_heroes, Hero.countDocuments.
  cbn [conditions skip_arg limit_arg].
  now rewrite (find_ext u (heroes db) f1 (Hero.matches u f2) Hsame).
Qed.

(** X8.  For a query of ASCII text with no character of pattern syntax, the
    by-name search answers with the heroes whose names start with the
    query, the letters a-z compared without case: the page holds their
    window in the order of the names, and [count] is their number.  (An
    ASCII letter of the query meets no letter outside ASCII: flag [i] never
    folds a unit of 128 or more onto one below.) *)
Theorem by_name_plain_page (u : bool) (db : Store) (s q : string) (n : Z)
    (p : JS.number) :
  JS.is_ascii_text q = true ->
  Pattern.plain (list_ascii_of_string q) ->
  JS.ToNumber (JS.VString s) = Some (JS.Num n) -> 1 <= n ->
  JS.parseInt (JS.VString s) = Some p ->
  let found :=
    List.filter
      (fun h => Pattern.starts_with_ci (list_ascii_of_string q)
                  (list_ascii_of_string (Hero.name h)))
      (heroes db) in
  search_by_name u db (Some s) (Some q)
  = Some {| data := window 10 n (sort_by Hero.name_asc found);
            count := Z.of_nat (List.length found);
            pagination :=
              [("page", p);
               ("pageCount", page_count (Z.of_nat (List.length found)) 10)] |}.
Proof.
  intros _ Hq Hn Hge Hp found.
  rewrite (search_by_name_answers u db (Some s) (Some q) _ n p
             (by_name_filter_plain q Hq) Hn Hge Hp).
  unfold Hero.countDocuments.
  now rewrite (find_ext u (heroes db) _ _ (matches_literal u _)).
Qed.

Lemma by_name_plain_page_witness :
  search_by_name true Sample.flora_and_flash (Some "1") (Some "FLO")
  = Some {| data := [Sample.flora];
            count := 1;
            pagination := [("page", JS.Num 1); ("pageCount", JS.Num 1)] |}.
Proof.
  exact (by_name_plain_page true Sample.flora_and_flash "1" "FLO" 1 (JS.Num 1)
           eq_refl eq_refl eq_refl (Z.le_refl 1) eq_refl).
Defined.

(** X9.  Whenever the by-name search with the empty query responds, the
    hero list responds for the same page with the same heroes and the same
    count: the empty query filters nothing out. *)
Theorem by_name_empty_is_list (u : bool) (db : Store) (page : option string)
    (r : Response Hero.t) :
  search_by_name u db page (Some "") = Some r ->
  exists r', list_heroes u db page = Some r'
             /\ data r' = data r /\ count r' = count r.
Proof.
  intros Hr.
  apply search_by_name_sent in Hr as (f & n & p & Hf & Hn & Hge & Hp & ->).
  destruct page as [s|]; [|discriminate Hn]. cbn [JS.of_query] in *.
  rewrite (list_heroes_answers u db (Some s) _ n p
             (list_heroes_page_number s n Hn) Hn Hge Hp).
  eexists. split; [reflexivity|]. cbn [data count].
  injection Hf as <-. unfold Hero.countDocuments.
  rewrite (find_ext u (heroes db) _ (fun _ => true)).
  - rewrite filter_true by reflexivity. split; reflexivity.
  - intros h. rewrite (matches_literal u []).
    apply PatternFacts.starts_with_ci_nil.
Qed.

Lemma by_name_empty_is_list_witness :
  exists r', list_heroes true Sample.flora_and_flash (Some "1") = Some r'
             /\ data r' = [Sample.flash; Sample.flora] /\ count r' = 2.
Proof.
  exact (by_name_empty_is_list true Sample.flora_and_flash (Some "1")
           {| data := [Sample.flash; Sample.flora]; count := 2;
              pagination := [("page", JS.Num 1); ("pageCount", JS.Num 1)] |}
           eq_refl).
Defined.

Lemma starts_with_ci_canonical (q1 q2 text : list ascii) :
  map Pattern.canonicalize q1 = map Pattern.canonicalize q2 ->
  Pattern.starts_with_ci q1 text = Pattern.starts_with_ci q2 text.
Proof.
  revert q2 text. induction q1 as [|a q1 IH]; intros q2 text Hq.
  - destruct q2; [reflexivity|discriminate Hq].
  - destruct q2 as [|b q2]; [discriminate Hq|].
    cbn [map] in Hq. injection Hq as Hab Hrest.
    destruct text as [|c text]; [reflexivity|]. cbn.
    now rewrite Hab, (IH q2 text Hrest).
Qed.

(** X10.  The case of the letters of a plain query plays no part: two
    queries that differ only in case get the same response, whatever the
    page and the collection. *)
Theorem by_name_case_blind (u : bool) (db : Store) (page : option string)
    (q1 q2 : string) :
  Pattern.plain (list_ascii_of_string q1) ->
  Pattern.plain (list_ascii_of_string q2) ->
  map Pattern.canonicalize (list_ascii_of_string q1)
  = map Pattern.canonicalize (list_ascii_of_string q2) ->
  search_by_name u db page (Some q1) = search_by_name u db page (Some q2).
Proof.
  intros H1 H2 Hsame.
  apply (search_by_name_ext u db page _ _ _ _
           (by_name_filter_plain q1 H1) (by_name_filter_plain q2 H2)).
  intros h. rewrite !matches_literal.
  now apply starts_with_ci_canonical.
Qed.

Lemma by_name_case_blind_witness :
  search_by_name true Sample.flora_and_flash (Some "1") (Some "fla")
  = search_by_name true Sample.flora_and_flash (Some "1") (Some "FlA").
Proof.
  exact (by_name_case_blind true Sample.flora_and_flash (Some "1") "fla" "FlA"
           eq_refl eq_refl eq_refl).
Defined.

(* ================================================================== *)
(** ** POST /search/heroes/by-min-stats: how bodies compare *)
(* ================================================================== *)

Lemma search_by_min_stats_ext (u : bool) (db : Store) (page : option string)
    (b1 b2 : StatsBody) :
  (forall h, Hero.matches u (by_min_stats_filter b1) h
             = Hero.matches u (by_min_stats_filter b2) h) ->
  search_by_min_stats u db page b1 = search_by_min_stats u db page b2.
Proof.
  intros Hsame. unfold search_by_min_stats, search_by_min_stats_call.
  destruct (skip_of (JS.of_query page) DEFAULT_HEROES_PER_PAGE) as [s|];
    [|reflexivity].
  cbn [bind]. unfold run_heroes, Hero.countDocuments.
  cbn [conditions skip_arg limit_arg].
  now rewrite (find_ext u (heroes db) (by_min_stats_filter b1)
                 (Hero.matches u (by_min_stats_filter b2)) Hsame).
Qed.

Lemma forallb_same_members {A : Type} (f : A -> bool) (l1 l2 : list A) :
  (forall x, In x l1 <-> In x l2) -> forallb f l1 = forallb f l2.
Proof.
  intros Hsame. apply eq_true_iff_eq. rewrite !forallb_forall.
  split; intros Hall x Hx; apply Hall; now apply Hsame.
Qed.

(** X11.  The order in which the body of the min-stats search lists its
    keys plays no part: two bodies with the same entries get the same
    response. *)
Theorem min_stats_order_blind (u : bool) (db : Store) (page : option string)
    (b1 b2 : StatsBody) :
  (forall e, In e b1 <-> In e b2) ->
  search_by_min_stats u db page b1 = search_by_min_stats u db page b2.
Proof.
  intros Hsame. apply search_by_min_stats_ext. intros h.
  rewrite !matches_min_stats. now apply forallb_same_members.
Qed.

Lemma min_stats_order_blind_witness :
  search_by_min_stats true Sample.flora_and_flash (Some "1")
    [("speed", 55); ("power", 10)]
  = search_by_min_stats true Sample.flora_and_flash (Some "1")
      [("power", 10); ("speed", 55)].
Proof.
  refine (min_stats_order_blind true Sample.flora_and_flash (Some "1")
            [("speed", 55); ("power", 10)] [("power", 10); ("speed", 55)] _).
  intros e. cbn. tauto.
Defined.

(** X12.  A body that asks for more never finds more: when every threshold
    of one body is met or exceeded by a threshold of a second body on the
    same key, the [count] of the second search is at most that of the
    first.  Adding a key and raising a threshold are both of this kind. *)
Theorem min_stats_antitone (u : bool) (db : Store) (page : option string)
    (b1 b2 : StatsBody) (r1 r2 : Response Hero.t) :
  (forall key least, In (key, least) b1 ->
     exists more, In (key, more) b2 /\ least <= more) ->
  search_by_min_stats u db page b1 = Some r1 ->
  search_by_min_stats u db page b2 = Some r2 ->
  count r2 <= count r1.
Proof.
  intros Hmore H1 H2.
  apply search_by_min_stats_sent in H1 as (n1 & p1 & _ & _ & _ & ->).
  apply search_by_min_stats_sent in H2 as (n2 & p2 & _ & _ & _ & ->).
  cbn [count]. rewrite !find_length. apply inj_le.
  apply filter_length_le. intros h.
  rewrite !matches_min_stats, !forallb_forall.
  intros Hall [key least] Hin. cbn [fst snd].
  destruct (Hmore key least Hin) as (more & Hin2 & Hle).
  specialize (Hall _ Hin2). cbn [fst snd] in Hall.
  destruct (stat (Hero.powerstats h) key) as [v|]; [|discriminate Hall].
  apply Z.leb_le in Hall. apply Z.leb_le. lia.
Qed.

Lemma min_stats_antitone_witness :
  count {| data := [Sample.flora]; count := 1;
           pagination := [("page", JS.Num 1); ("pageCount", JS.Num 1)] |}
  <= count {| data := [Sample.flash; Sample.flora]; count := 2;
              pagination := [("page", JS.Num 1); ("pageCount", JS.Num 1)] |}.
Proof.
  refine (min_stats_antitone true Sample.flora_and_flash (Some "1")
            [("speed", 50)] [("speed", 55); ("power", 10)] _ _ _ eq_refl
            eq_refl).
  intros key least [[= <- <-]|[]]. exists 55. split; [now left|lia].
Defined.

(* ================================================================== *)
(** ** GET /search: every parameter set, and the count *)
(* ================================================================== *)

Lemma search_filter_plain (q : SearchQuery) (name : string) :
  q_name q = Some name ->
  Pattern.plain (list_ascii_of_string name) ->
  search_filter q
  = Some (Fields [("name",
                   Regex (Pattern.literal (list_ascii_of_string name)));
                  ("appearance.gender", Equals (q_gender q));
                  ("powerstats.intelligence", Gte (q_intelligence q));
                  ("powerstats.strength", Gte (q_strength q));
                  ("powerstats.speed", Gte (q_speed q));
                  ("powerstats.durability", Gte (q_durability q));
                  ("powerstats.power", Gte (q_power q));
                  ("powerstats.combat", Gte (q_combat q))])
  /\ search_count_filter q
     = Some (Fields [("name",
                      Regex (Pattern.literal (list_ascii_of_string name)))]).
Proof.
  intros Hname Hplain. unfold search_filter, search_count_filter.
  rewrite Hname. unfold Pattern.RegExp. cbn.
  now rewrite (PatternFacts.parse_plain _ Hplain).
Qed.

(** X13.  With every parameter of the combined search set, and a name of
    ASCII text with no character of pattern syntax, the page holds the
    window, in the order of the names, of the heroes whose name starts with
    the given one (the letters a-z compared without case), whose gender is
    exactly the given one, and whose six powerstats each reach their
    threshold. *)
Theorem search_all_set (u : bool) (db : Store) (s name gender : string)
    (i st sp du po co n : Z) (p : JS.number) :
  JS.is_ascii_text name = true ->
  Pattern.plain (list_ascii_of_string name) ->
  JS.ToNumber (JS.VString s) = Some (JS.Num n) -> 1 <= n ->
  JS.parseInt (JS.VString s) = Some p ->
  let q := {| q_page := Some s; q_name := Some name;
              q_gender := Some gender; q_intelligence := Some i;
              q_strength := Some st; q_speed := Some sp;
              q_durability := Some du; q_power := Some po;
              q_combat := Some co |} in
  let found :=
    List.filter
      (fun h =>
         Pattern.starts_with_ci (list_ascii_of_string name)
                                (list_ascii_of_string (Hero.name h))
         && String.eqb gender (Hero.gender h)
         && (i <=? intelligence (Hero.powerstats h))
         && (st <=? strength (Hero.powerstats h))
         && (sp <=? speed (Hero.powerstats h))
         && (du <=? durability (Hero.powerstats h))
         && (po <=? power (Hero.powerstats h))
         && (co <=? combat (Hero.powerstats h)))
      (heroes db) in
  option_map data (search u db q)
  = Some (window 10 n (sort_by Hero.name_asc found)).
Proof.
  intros _ Hplain Hn Hge Hp q found.
  destruct (search_filter_plain q name eq_refl Hplain) as [Hf Hg].
  rewrite (search_answers u db q _ _ n p Hf Hg Hn Hge Hp).
  cbn [option_map data q_gender q_intelligence q_strength q_speed
       q_durability q_power q_combat q]. f_equal. f_equal. f_equal.
  apply find_ext. intros h. unfold Hero.matches.
  cbn [satisfies forallb]. rewrite holds_name_regex. unfold Pattern.test.
  rewrite PatternFacts.matches_prefix_literal.
  unfold holds. cbn. now rewrite andb_true_r, !andb_assoc.
Qed.

Lemma search_all_set_witness :
  option_map data
    (search true Sample.flora_and_flash
       {| q_page := Some "1"; q_name := Some "fl"; q_gender := Some "Female";
          q_intelligence := Some 60; q_strength := Some 0; q_speed := Some 0;
          q_durability := Some 0; q_power := Some 0; q_combat := Some 0 |})
  = Some [Sample.flora].
Proof.
  exact (search_all_set true Sample.flora_and_flash "1" "fl" "Female"
           60 0 0 0 0 0 1 (JS.Num 1) eq_refl eq_refl eq_refl (Z.le_refl 1)
           eq_refl).
Defined.

(** X14.  The combined search reports the count and the pagination of the
    by-name search for the same name and page, whatever gender and
    thresholds it was given: they bear on the page only. *)
Theorem search_counts_like_by_name (u : bool) (db : Store) (q : SearchQuery) :
  option_map count (search u db q)
  = option_map count (search_by_name u db (q_page q) (q_name q))
  /\ option_map pagination (search u db q)
     = option_map pagination (search_by_name u db (q_page q) (q_name q)).
Proof.
  unfold search, search_call, search_filter, search_count_filter,
    search_by_name, search_by_name_call, by_name_filter.
  destruct (Pattern.RegExp (JS.concat "^" (q_name q))) as [re|];
    cbn [bind]; [|split; reflexivity].
  destruct (skip_of (JS.of_query (q_page q)) DEFAULT_HEROES_PER_PAGE)
    as [[|z]|]; cbn [bind]; try (split; reflexivity).
  unfold run_heroes, skip. cbn [skip_arg limit_arg conditions].
  destruct (0 <=? z); cbn [bind]; [|split; reflexivity].
  destruct (JS.parseInt (JS.of_query (q_page q))); split; reflexivity.
Qed.

Lemma search_omitted_name_witness :
  Pattern.starts_with_ci (list_ascii_of_string "undefined")
    (list_ascii_of_string (Hero.name Sample2.undefined_man)) = true.
Proof.
  exact (search_omitted_name true Sample2.with_undefined_man
           (Sample.full_query (Some "1") None "Male" 0)
           {| data := [Sample2.undefined_man]; count := 1;
              pagination := [("page", JS.Num 1); ("pageCount", JS.Num 1)] |}
           Sample2.undefined_man eq_refl eq_refl (or_introl eq_refl)).
Defined.

(* ================================================================== *)
(** ** GET /heroes/:id *)
(* ================================================================== *)

Lemma matches_id (u : bool) (id : string) (h : Hero.t) :
  Hero.matches u (Fields [("_id", Equals (Some id))]) h
  = String.eqb id (Hero._id h).
Proof. unfold Hero.matches. cbn. apply andb_true_r. Qed.

Lemma filter_none {A : Type} (f : A -> bool) (l : list A) :
  (forall x, In x l -> f x = false) -> List.filter f l = [].
Proof.
  intros Hf. induction l as [|x l IH]; [reflexivity|]. cbn.
  rewrite (Hf x (or_introl eq_refl)). apply IH. intros y Hy. apply Hf.
  now right.
Qed.

(** X15.  [GET /heroes/:id] hands to the view exactly the heroes whose
    identifier is the route parameter.  When no hero has it the list is
    empty, with no error of any kind; when the identifiers of the
    collection are distinct, the list holds the one hero that has it. *)
Theorem get_hero_results (u : bool) (db : Store) (id : string) :
  (forall h, In h (get_hero u db id)
             <-> In h (heroes db) /\ Hero._id h = id)
  /\ (Hero.findById (heroes db) id = None -> get_hero u db id = [])
  /\ (NoDup (map Hero._id (heroes db)) ->
      forall h, Hero.findById (heroes db) id = Some h ->
                get_hero u db id = [h]).
Proof.
  unfold get_hero.
  rewrite (find_ext u (heroes db) _ _ (matches_id u id)).
  refine (conj _ (conj _ _)).
  - intros h. rewrite filter_In. split; intros [Hin Hid]; split; trivial.
    + symmetry. now apply String.eqb_eq.
    + apply String.eqb_eq. now symmetry.
  - intros Hnone. apply filter_none. intros h Hh.
    rewrite String.eqb_sym.
    exact (find_none _ _ Hnone h Hh).
  - unfold Hero.findById. induction (heroes db) as [|x l IH];
      intros Hdup h Hfind; [discriminate Hfind|].
    cbn [map] in Hdup. inversion Hdup as [|? ? Hnot Hrest]; subst.
    cbn [List.find List.filter] in *. rewrite (String.eqb_sym id).
    destruct (String.eqb (Hero._id x) id) eqn:Hx.
    + injection Hfind as <-. f_equal. apply filter_none.
      intros y Hy. apply String.eqb_neq. intros ->.
      apply String.eqb_eq in Hx. apply Hnot. rewrite Hx.
      now apply in_map.
    + now apply IH.
Qed.

Lemma get_hero_results_witness :
  get_hero true Sample.flora_and_flash "nobody" = []
  /\ get_hero true Sample.flora_and_flash "5f1a" = [Sample.flash].
Proof.
  destruct (get_hero_results true Sample.flora_and_flash "nobody")
    as (_ & Hnone & _).
  destruct (get_hero_results true Sample.flora_and_flash "5f1a")
    as (_ & _ & Hone).
  split; [exact (Hnone eq_refl)|].
  refine (Hone _ Sample.flash eq_refl).
  repeat constructor; cbn; intuition discriminate.
Defined.

(* ================================================================== *)
(** ** POST /heroes/:id/comments *)
(* ================================================================== *)

(** X16.  In a store whose comment identifiers are distinct and below the
    next one, the handler stores the comment and answers with that very
    comment, its hero reference resolved.  It does so for any route
    parameter: when no hero has that identifier the comment is stored all
    the same and the answer carries [null] for its hero. *)
Theorem create_comment_outcome (db : Store) (now : Z)
    (id commentText : string) :
  well_numbered db ->
  let saved := {| Comment._id := next_id db; Comment.hero := id;
                  Comment.text := commentText; Comment.createdAt := now |} in
  comments (fst (create_comment db now id commentText))
  = comments db ++ [saved]
  /\ snd (create_comment db now id commentText)
     = Some (Comment.populate (heroes db) saved)
  /\ (Hero.findById (heroes db) id = None ->
      option_map Comment.p_hero (snd (create_comment db now id commentText))
      = Some None).
Proof.
  intros [_ Hbelow] saved.
  pose proof (create_comment_response db now id commentText Hbelow) as Hsent.
  refine (conj eq_refl (conj Hsent _)).
  intros Hnone. rewrite Hsent. cbn. now rewrite Hnone.
Qed.

Lemma create_comment_outcome_witness :
  snd (create_comment Sample2.one_comment 200 "nobody" "hello")
  = Some {| Comment.p_id := 1; Comment.p_hero := None;
            Comment.p_text := "hello"; Comment.p_createdAt := 200 |}.
Proof.
  refine (proj1 (proj2 (create_comment_outcome Sample2.one_comment 200
                          "nobody" "hello" _))).
  split.
  - repeat constructor. intros [].
  - intros c [<-|[]]. cbn. lia.
Defined.

(** X18.  Creating a comment for a hero raises by one the [count] of that
    hero's comment list and leaves the count of every other hero's list as
    it was, on any page that is answered; the hero list is what it was. *)
Theorem create_then_count (db : Store) (now : Z) (id commentText : string) :
  let db' := fst (create_comment db now id commentText) in
  (forall other page,
     option_map count (list_comments db' other page)
     = option_map (fun c => if String.eqb id other then c + 1 else c)
                  (option_map count (list_comments db other page)))
  /\ (forall u page, list_heroes u db' page = list_heroes u db page).
Proof.
  intros db'. split; [|reflexivity]. intros other page.
  unfold list_comments, list_comments_call.
  destruct (skip_of (JS.of_query page) DEFAULT_COMMENTS_PER_PAGE)
    as [[|z]|]; cbn [bind]; try reflexivity.
  unfold run_comments, skip. cbn [skip_arg limit_arg conditions].
  destruct (0 <=? z); cbn [bind]; [|reflexivity].
  destruct (JS.parseInt (JS.of_query page)); cbn [bind option_map count];
    [|reflexivity].
  f_equal. subst db'. rewrite create_comment_store. cbn [comments].
  rewrite find_comments_app, length_app. unfold Comment.find at 2.
  cbn [List.filter Comment.hero].
  destruct (String.eqb id other); cbn [List.length]; lia.
Qed.

(* ================================================================== *)
(** ** GET /heroes/:id/comments *)
(* ================================================================== *)

(** X19.  For a route parameter that no comment refers to, be it the
    identifier of a hero without comments or of no hero at all, the comment
    list answers any page that reads as a number [n >= 1] with no records,
    count 0 and 0 pages. *)
Theorem list_comments_none (db : Store) (id s : string) (n : Z)
    (p : JS.number) :
  (forall c, In c (comments db) -> Comment.hero c <> id) ->
  JS.ToNumber (JS.VString s) = Some (JS.Num n) -> 1 <= n ->
  JS.parseInt (JS.VString s) = Some p ->
  list_comments db id (Some s)
  = Some {| data := [];
            count := 0;
            pagination := [("page", p); ("pageCount", JS.Num 0)] |}.
Proof.
  intros Hnone Hn Hge Hp.
  rewrite (list_comments_answers db id (Some s) n p Hn Hge Hp).
  assert (Hfind : Comment.find (comments db) id = []).
  { apply filter_none. intros c Hc. apply String.eqb_neq. now apply Hnone. }
  rewrite Hfind. unfold window. cbn [map sort_by fold_right].
  now rewrite skipn_nil, firstn_nil.
Qed.

Lemma list_comments_none_witness :
  list_comments Sample2.one_comment "5f1b" (Some "1")
  = Some {| data := [];
            count := 0;
            pagination := [("page", JS.Num 1); ("pageCount", JS.Num 0)] |}.
Proof.
  refine (list_comments_none Sample2.one_comment "5f1b" "1" 1 (JS.Num 1)
            _ eq_refl (Z.le_refl 1) eq_refl).
  intros c [<-|[]]. discriminate.
Defined.

Lemma createdAt_desc_total (x y : Comment.populated) :
  Comment.createdAt_desc x y = true \/ Comment.createdAt_desc y x = true.
Proof.
  unfold Comment.createdAt_desc.
  destruct (Z.le_ge_cases (Comment.p_createdAt y) (Comment.p_createdAt x));
    [left|right]; now apply Z.leb_le.
Qed.

(** X20.  Whenever the comment list responds, each entry of its page is a
    stored comment of the hero asked for, read with its hero reference
    resolved, and the entries stand from new to old: no entry is older than
    the one after it. *)
Theorem comment_page_entries (db : Store) (id : string) (page : option string)
    (r : Response Comment.populated) :
  list_comments db id page = Some r ->
  Sorted (fun a b => Comment.p_createdAt b <= Comment.p_createdAt a) (data r)
  /\ forall e, In e (data r) ->
       Comment.p_hero e = Hero.findById (heroes db) id
       /\ exists c, In c (comments db) /\ Comment.hero c = id
                    /\ e = Comment.populate (heroes db) c.
Proof.
  intros Hr. apply list_comments_sent in Hr as (n & p & _ & _ & _ & ->).
  cbn [data]. split.
  - apply window_sorted.
    pose proof (sort_by_sorted Comment.createdAt_desc createdAt_desc_total
                  (map (Comment.populate (heroes db))
                       (Comment.find (comments db) id))) as Hs.
    eapply Sorted_ind with (P := fun l =>
      Sorted (fun a b => Comment.p_createdAt b <= Comment.p_createdAt a) l);
      [constructor| |exact Hs].
    intros a l _ IH Hhd. constructor; [exact IH|].
    destruct Hhd as [|b l Hab]; constructor.
    now apply Z.leb_le.
  - intros e He. apply window_In, sort_by_In, in_map_iff in He
      as (c & <- & Hc).
    apply find_comments_hero in Hc as [Hin Hid].
    split; [cbn; now rewrite Hid|]. now exists c.
Qed.

Lemma comment_page_entries_witness :
  Sorted (fun a b => Comment.p_createdAt b <= Comment.p_createdAt a)
         (data_of (list_comments Sample2.one_comment "5f1a" (Some "1"))).
Proof.
  exact (proj1 (comment_page_entries Sample2.one_comment "5f1a" (Some "1")
                  _ eq_refl)).
Defined.

Lemma list_comments_decimal_page (db : Store) (id : string) (i : nat) :
  Z.of_nat i + 1 <= JS.modelled_bound ->
  data_of (list_comments db id (Some (JS.decimal (Z.of_nat i + 1))))
  = window 3 (Z.of_nat i + 1)
      (sort_by Comment.createdAt_desc
         (map (Comment.populate (heroes db)) (Comment.find (comments db) id))).
Proof.
  intros Hi.
  destruct (DecimalText.decimal_reads_back (Z.of_nat i + 1) ltac:(lia))
    as [Hn Hq].
  now rewrite (list_comments_answers db id
                 (Some (JS.decimal (Z.of_nat i + 1))) _ _ Hn ltac:(lia) Hq).
Qed.

(** X21.  Walking a hero's comments from page 1 to page [pageCount] meets
    each of them once, from new to old: the pages put end to end are the
    hero's comments sorted by creation time. *)
Theorem list_comments_pages_cover (db : Store) (id : string) :
  let mine := Comment.find (comments db) id in
  Z.of_nat (List.length mine) <= JS.modelled_bound ->
  let pages := Z.to_nat (JS.ceil_div (Z.of_nat (List.length mine)) 3) in
  let walked :=
    List.concat
      (map (fun i => data_of (list_comments db id
                                (Some (JS.decimal (Z.of_nat i + 1)))))
           (seq 0 pages)) in
  walked = sort_by Comment.createdAt_desc
             (map (Comment.populate (heroes db)) mine)
  /\ Permutation walked (map (Comment.populate (heroes db)) mine).
Proof.
  intros mine Hsize pages walked.
  assert (Hwalked : walked = sort_by Comment.createdAt_desc
                               (map (Comment.populate (heroes db)) mine)).
  { subst walked pages.
    rewrite <- (windows_cover 3 (sort_by Comment.createdAt_desc
                                   (map (Comment.populate (heroes db)) mine)))
      at 1 by lia.
    rewrite sort_by_length, length_map. f_equal. apply map_ext_in.
    intros i Hi. apply in_seq in Hi. apply list_comments_decimal_page.
    unfold JS.ceil_div in Hi.
    destruct mine as [|c rest]; [cbn in Hi; lia|].
    assert (Hdiv : (Z.of_nat (List.length (c :: rest)) + 3 - 1) / 3
                   <= Z.of_nat (List.length (c :: rest))).
    { apply Z.div_le_upper_bound; cbn [List.length]; lia. }
    lia. }
  split; [exact Hwalked|]. rewrite Hwalked. apply sort_by_perm.
Qed.

Lemma list_comments_pages_cover_witness :
  List.concat
    (map (fun i => data_of (list_comments Sample2.one_comment "5f1a"
                              (Some (JS.decimal (Z.of_nat i + 1)))))
         (seq 0 1))
  = [Comment.populate (heroes Sample2.one_comment) Sample2.first_comment].
Proof.
  refine (proj1 (list_comments_pages_cover Sample2.one_comment "5f1a" _)).
  unfold JS.modelled_bound. cbn. lia.
Defined.

(* ================================================================== *)
(** ** The routes *)
(* ================================================================== *)

Module RouteFacts.
Import Routes.

Lemma taken_In (pieces : list piece) (path : list string) (x : string) :
  In x (taken pieces path) -> In x path.
Proof.
  revert path. induction pieces as [|[s|name] pieces IH]; intros path Hx;
    destruct path as [|y path]; cbn in Hx; try contradiction.
  - right. now apply IH.
  - destruct Hx as [<-|Hx]; [now left|right; now apply IH].
Qed.

Lemma taken_decode (pieces : list piece) (path : list string) :
  (forall x, In x path -> decodes x = true) ->
  forallb decodes (taken pieces path) = true.
Proof.
  intros Hpath. apply forallb_forall. intros x Hx.
  now apply Hpath, (taken_In pieces).
Qed.

(** Unfolds the walk over the routes into one test per route, in order, and
    tries every answer of the tests. *)
Ltac by_route path :=
  unfold dispatch, app, router; cbn -[fits decodes taken forallb];
  repeat match goal with
         | |- context [fits ?p path] =>
             destruct (fits p path); cbn -[fits decodes taken forallb]
         | |- context [forallb decodes ?l] =>
             destruct (forallb decodes l);
             cbn -[fits decodes taken forallb]
         end.

(** X22.  The search page that the application file registers under
    [GET /search] is never reached: the router is mounted first and its
    own [GET /search] handler answers every request that page could take. *)
Theorem search_page_unreachable (m : method) (path : list string) :
  dispatch m path <> Some SearchPage.
Proof. destruct m; by_route path; discriminate. Qed.

(** X23.  No [GET] request is left without an answer: it reaches a handler,
    the catch-all answering 404 where no other route takes it, or it is
    refused with the error middleware's answer because a parameter does not
    decode; a [GET] whose path decodes piece by piece always reaches a
    handler.  The catch-all is registered for [GET] only: a [POST] reaches
    one of the three [POST] handlers or none, and a [PUT], [PATCH] or
    [DELETE] reaches no handler at all. *)
Theorem dispatch_by_method (path : list string) :
  route_request app GET path <> Unmatched
  /\ ((forall piece, In piece path -> decodes piece = true) ->
      exists h, dispatch GET path = Some h)
  /\ (dispatch POST path = None
      \/ dispatch POST path = Some SearchByName
      \/ dispatch POST path = Some SearchByMinStats
      \/ dispatch POST path = Some CreateComment)
  /\ dispatch PUT path = None
  /\ dispatch PATCH path = None
  /\ dispatch DELETE path = None.
Proof.
  refine (conj _ (conj _ (conj _ (conj _ (conj _ _))))).
  - by_route path; discriminate.
  - intros Hpath. unfold dispatch, app, router.
    cbn -[fits decodes taken forallb].
    rewrite !(taken_decode _ path Hpath).
    replace (forallb decodes path) with true
      by (symmetry; now apply forallb_forall).
    repeat match goal with
           | |- context [fits ?p path] =>
               destruct (fits p path); cbn -[fits decodes taken forallb]
           end;
      eexists; reflexivity.
  - by_route path; auto.
  - by_route path; reflexivity.
  - by_route path; reflexivity.
  - by_route path; reflexivity.
Qed.

Lemma dispatch_by_method_witness :
  exists h, dispatch GET ["heroes"; "5f%2Fa"; "comments"] = Some h.
Proof.
  refine (proj1 (proj2 (dispatch_by_method ["heroes"; "5f%2Fa"; "comments"]))
            _).
  intros piece [<-|[<-|[<-|[]]]]; reflexivity.
Defined.

(** X24.  How the routes with a parameter part the paths under [/heroes].
    [GET /heroes/<id>] reaches the hero list for the empty id (the path
    [/heroes/]), the detail handler for an id that decodes, and is refused
    for one that does not.  [/heroes/<id>/comments] with an id that decodes
    reaches the comment list on [GET] and the comment creation on [POST],
    and is refused on both with one that does not; with the empty id it
    reaches the 404 catch-all on [GET] and no route on [POST]. *)
Theorem dispatch_hero_paths (id : string) :
  route_request app GET ["heroes"; id]
  = (if String.eqb id "" then Reached ListHeroes
     else if decodes id then Reached GetHero else Refused)
  /\ route_request app GET ["heroes"; id; "comments"]
     = (if String.eqb id "" then Reached NotFound
        else if decodes id then Reached ListComments else Refused)
  /\ route_request app POST ["heroes"; id; "comments"]
     = (if String.eqb id "" then Unmatched
        else if decodes id then Reached CreateComment else Refused).
Proof.
  unfold app, router.
  destruct (String.eqb_spec id "") as [->|Hid]; [repeat split|].
  cbn -[decodes]. apply String.eqb_neq in Hid. rewrite Hid.
  cbn -[decodes]. destruct (decodes id); repeat split.
Qed.

Example undecodable_parameter :
  decodes "%zz" = false /\ decodes "%C3" = false /\ decodes "%C3%A9" = true
  /\ decodes "%ED%A0%80" = false /\ decodes "5f1a" = true
  /\ route_request app GET ["heroes"; "%zz"] = Refused
  /\ route_request app DELETE ["heroes"; "%zz"] = Refused
  /\ route_request app GET ["nowhere"; "%zz"] = Refused
  /\ route_request app GET ["nowhere"] = Reached NotFound.
Proof. repeat split. Qed.

End RouteFacts.
